(** * TAPIR: the belief-action tree and the simulation-driving search engine

    A shallow embedding of
      - [solver/ActionNode.cpp]                      (module [ActionNode]),
      - [solver/mappings/actions/ActionMapping.hpp]  (module [ActionMapping]),
      - [solver/search/search_interface.cpp]         (module [Search]),
    and the properties of the specification that concern them.

    Conventions.
      - A C++ [double] is an IEEE 754 binary64 number: Rocq's primitive
        [float], with its [+] and [/].
      - A C++ [long] is a [Z]; the one place where the code does arithmetic
        on a [long] reduces the result to 64 bits ([long_wrap]).
      - A pointer that the code compares with [nullptr] is an [option]; a
        call through a null pointer has no defined result, which the
        embedding writes as [None] (or [Undefined] in [extendSequence]).
      - The abstract classes whose implementations live outside these three
        files (ObservationMapping, ActionMappingEntry, StepGenerator,
        StepGeneratorFactory, Solver, Model, ...) are type classes; the
        theorems hold for every instance, and concrete instances are given
        where a statement is evaluated. *)

From Stdlib Require Import ZArith Floats Uint63 List Bool Lia.
From stdpp Require Import gmap.
Import ListNotations.

Open Scope Z_scope.

(** ** Machine numbers *)

Definition double := float.

Definition LONG_MIN : Z := - 2 ^ 63.
Definition LONG_MAX : Z := 2 ^ 63 - 1.

(** Reduction of an integer to the two's-complement 64-bit [long]. *)
Definition long_wrap (z : Z) : Z := (z + 2 ^ 63) mod 2 ^ 64 - 2 ^ 63.

(** The implicit conversion [long -> double] in [totalQValue_ / nParticles_]
    (round to nearest; [of_uint63] is exact on magnitudes below 2^53 and
    correctly rounded up to 2^63 - 1). *)
Definition double_of_long (n : Z) : double :=
  if n =? LONG_MIN then (-0x1p+63)%float
  else if n <? 0 then (- PrimFloat.of_uint63 (Uint63.of_Z (- n)))%float
  else PrimFloat.of_uint63 (Uint63.of_Z n).

(** ** ActionNode.cpp *)

Module ActionNode.

(** The abstract class ObservationMapping, as far as ActionNode uses it:
    [getBelief] is a lookup that may answer null, [createBelief] makes the
    child for an observation and returns it. *)
Class ObservationMapping (Observation BeliefNode OM : Type) := {
  getBelief : OM -> Observation -> option BeliefNode;
  createBelief : OM -> Observation -> BeliefNode * OM
}.

(** Modelled from the spec: ObservationMapping.hpp and its implementations
    are not among the sources; the spec describes the class as "a collection
    mapping distinct observations to BeliefNode children".  The one property
    of it that ActionNode relies on: the child made for an unseen
    observation is the one a later lookup of that observation finds. *)
Definition creates_then_finds {Observation BeliefNode OM : Type}
    `{ObservationMapping Observation BeliefNode OM} : Prop :=
  forall (m : OM) (obs : Observation),
    getBelief m obs = None ->
    getBelief (snd (createBelief m obs)) obs = Some (fst (createBelief m obs)).

Record ActionNode (OM : Type) := mkActionNode {
  nParticles_ : Z;
  totalQValue_ : double;
  meanQValue_ : double;
  obsMap_ : option OM
}.
Arguments mkActionNode {OM}.
Arguments nParticles_ {OM}.
Arguments totalQValue_ {OM}.
Arguments meanQValue_ {OM}.
Arguments obsMap_ {OM}.

Section Node.
Context {Observation BeliefNode OM : Type}.
Context `{ObservationMapping Observation BeliefNode OM}.

(** [ActionNode::ActionNode(std::unique_ptr<ObservationMapping> mapping)] *)
Definition new (mapping : option OM) : ActionNode OM :=
  {| nParticles_ := 0; totalQValue_ := 0%float; meanQValue_ := 0%float;
     obsMap_ := mapping |}.

(** [ActionNode::ActionNode()] delegates with a null mapping. *)
Definition new_default : ActionNode OM := new None.

(** [void ActionNode::updateQValue(double increase)] *)
Definition updateQValue (node : ActionNode OM) (increase : double) : ActionNode OM :=
  let total := (totalQValue_ node + increase)%float in
  {| nParticles_ := nParticles_ node;
     totalQValue_ := total;
     meanQValue_ :=
       if 0 <? nParticles_ node
       then (total / double_of_long (nParticles_ node))%float
       else 0%float;
     obsMap_ := obsMap_ node |}.

(** [void ActionNode::updateQValue(double increase, long deltaNParticles)] *)
Definition updateQValue_delta (node : ActionNode OM) (increase : double)
    (deltaNParticles : Z) : ActionNode OM :=
  updateQValue
    {| nParticles_ := long_wrap (nParticles_ node + deltaNParticles);
       totalQValue_ := totalQValue_ node;
       meanQValue_ := meanQValue_ node;
       obsMap_ := obsMap_ node |}
    increase.

Definition getNParticles (node : ActionNode OM) : Z := nParticles_ node.
Definition getTotalQValue (node : ActionNode OM) : double := totalQValue_ node.
Definition getMeanQValue (node : ActionNode OM) : double := meanQValue_ node.
Definition getMapping (node : ActionNode OM) : option OM := obsMap_ node.

(** [BeliefNode *ActionNode::getChild(Observation const &obs) const]:
    the outer [option] is the call through [obsMap_], the inner one the
    pointer that [getBelief] returns. *)
Definition getChild (node : ActionNode OM) (obs : Observation)
    : option (option BeliefNode) :=
  match obsMap_ node with
  | None => None
  | Some m => Some (getBelief m obs)
  end.

(** [std::pair<BeliefNode *, bool> ActionNode::createOrGetChild(obs)]:
    the pair returned, and the node after the call. *)
Definition createOrGetChild (node : ActionNode OM) (obs : Observation)
    : option (BeliefNode * bool * ActionNode OM) :=
  match getChild node obs with
  | None => None
  | Some (Some beliefChild) => Some (beliefChild, false, node)
  | Some None =>
      match obsMap_ node with
      | None => None
      | Some m =>
          let '(beliefChild, m') := createBelief m obs in
          Some (beliefChild, true,
                {| nParticles_ := nParticles_ node;
                   totalQValue_ := totalQValue_ node;
                   meanQValue_ := meanQValue_ node;
                   obsMap_ := Some m' |})
      end
  end.

(** The mean that belongs to the two other fields of a node. *)
Definition mean_of (node : ActionNode OM) : double :=
  if 0 <? nParticles_ node
  then (totalQValue_ node / double_of_long (nParticles_ node))%float
  else 0%float.

(** A call of either overload of [updateQValue], and a sequence of them. *)
Inductive QCall :=
| Update (increase : double)
| UpdateDelta (increase : double) (deltaNParticles : Z).

Definition call (node : ActionNode OM) (c : QCall) : ActionNode OM :=
  match c with
  | Update increase => updateQValue node increase
  | UpdateDelta increase deltaNParticles =>
      updateQValue_delta node increase deltaNParticles
  end.

Definition calls (node : ActionNode OM) (cs : list QCall) : ActionNode OM :=
  fold_left call cs node.

(** The particle counts that a sequence of calls asks for, before any
    reduction to 64 bits: every one of them is a count, between 0 and
    LONG_MAX. *)
Fixpoint counts_in_range (count : Z) (cs : list QCall) : bool :=
  match cs with
  | [] => true
  | Update _ :: cs' => counts_in_range count cs'
  | UpdateDelta _ d :: cs' =>
      (0 <=? count + d) && (count + d <=? LONG_MAX)
      && counts_in_range (count + d) cs'
  end.

(** The sum of the [deltaNParticles] of a sequence of calls; the
    one-argument overload has none. *)
Fixpoint sum_deltas (cs : list QCall) : Z :=
  match cs with
  | [] => 0
  | Update _ :: cs' => sum_deltas cs'
  | UpdateDelta _ d :: cs' => d + sum_deltas cs'
  end.

End Node.

(** An ObservationMapping over a finite map, with observations and belief
    nodes named by numbers; a new child takes the next unused name. *)
Record TableMapping := mkTable {
  children : gmap nat nat;
  nextChild : nat
}.

#[export] Instance TableMapping_ops : ObservationMapping nat nat TableMapping := {
  getBelief m obs := children m !! obs;
  createBelief m obs :=
    (nextChild m,
     {| children := <[obs := nextChild m]> (children m);
        nextChild := S (nextChild m) |})
}.

Definition emptyTable : TableMapping := {| children := ∅; nextChild := 0 |}.

(** A fresh node over an empty table. *)
Definition fresh : ActionNode TableMapping := new (Some emptyTable).

Arguments Update increase%_float.
Arguments UpdateDelta increase%_float deltaNParticles%_Z.

End ActionNode.

(** ** ActionMapping.hpp *)

Module ActionMapping.

(** The abstract class ActionMapping, as far as its one implemented method
    uses it.  [getEntry] is the pure virtual lookup ("the mapping entry (if
    any) associated with the given action"); [entry_update] is
    [ActionMappingEntry::update(deltaNVisits, deltaTotalQ)] on an entry of
    this mapping: the entries live inside the mapping, so updating one
    gives the mapping after the update, with the [bool] it returns. *)
Class ActionMapping (Action Entry M : Type) := {
  getEntry : M -> Action -> option Entry;
  entry_update : M -> Entry -> Z -> double -> bool * M
}.

Section Mapping.
Context {Action Entry M : Type} `{ActionMapping Action Entry M}.

(** [virtual bool update(Action const &action, long deltaNVisits,
    double deltaTotalQ)]: [getEntry(action)->update(...)]. *)
Definition update (m : M) (action : Action) (deltaNVisits : Z)
    (deltaTotalQ : double) : option (bool * M) :=
  match getEntry m action with
  | None => None
  | Some entry => Some (entry_update m entry deltaNVisits deltaTotalQ)
  end.
End Mapping.

(** A mapping over a finite map from action numbers to visit count and
    total q-value; an entry is named by its action number, and its update
    reports whether the stored total moved. *)
Definition TableEntries := gmap nat (Z * double).

#[export] Instance Table_ops : ActionMapping nat nat TableEntries := {
  getEntry m action := match m !! action with Some _ => Some action | None => None end;
  entry_update m entry deltaNVisits deltaTotalQ :=
    match m !! entry with
    | None => (false, m)
    | Some (visits, total) =>
        let total' := (total + deltaTotalQ)%float in
        (negb (PrimFloat.eqb total' total),
         <[entry := (long_wrap (visits + deltaNVisits), total')]> m)
    end
}.

(** A table with one entry: action 2, visited once, total value 4. *)
Definition table : TableEntries := <[2%nat := (1, 4%float)]> ∅.

End ActionMapping.

(** ** search_interface.cpp *)

Module Search.

(** Modelled from the spec: SearchStatus.hpp is not among the sources; these
    are the five statuses that [extendSequence] names. *)
Inductive SearchStatus :=
| UNINITIALIZED | INITIAL | OUT_OF_STEPS | FINISHED | ERROR.

#[export] Instance SearchStatus_eq_dec : EqDecision SearchStatus.
Proof. solve_decision. Defined.

(** The opaque value types of the problem, and the handles by which this
    file refers to objects owned elsewhere (a [StateInfo] of the state pool,
    a [BeliefNode] of the belief tree). *)
Class Domain := {
  State : Type;
  Action : Type;
  Observation : Type;
  TransitionParameters : Type;
  HistoricalData : Type;
  StateInfo : Type;
  BeliefNode : Type;
  (* [StateInfo::getState] *)
  getState : StateInfo -> State
}.

Section Types.
Context {D : Domain}.

(** [Model::StepResult]; the four pointers may be null. *)
Record StepResult := mkStepResult {
  action : option Action;
  transitionParameters : option TransitionParameters;
  observation : option Observation;
  reward : double;
  nextState : option State;
  isTerminal : bool
}.

(** Modelled from the spec: HistoryEntry.hpp is not among the sources.
    "An entry owns the immediate reward, the action taken, the transition
    parameters, the resulting observation, and a back-reference to the
    belief node it is registered under"; its state is that of the
    StateInfo it was made for. *)
Record HistoryEntry := mkHistoryEntry {
  stateInfo_ : StateInfo;
  action_ : option Action;
  transitionParameters_ : option TransitionParameters;
  observation_ : option Observation;
  immediateReward_ : double;
  associatedBeliefNode_ : option BeliefNode
}.

(** [HistoryEntry::getState] *)
Definition entry_getState (entry : HistoryEntry) : State :=
  getState (stateInfo_ entry).

(** The entry that [HistorySequence::addEntry] appends: nothing recorded
    in it yet. *)
Definition new_entry (info : StateInfo) : HistoryEntry :=
  {| stateInfo_ := info; action_ := None; transitionParameters_ := None;
     observation_ := None; immediateReward_ := 0%float;
     associatedBeliefNode_ := None |}.

(** The four assignments of the loop body to [*currentEntry]. *)
Definition record_step (entry : HistoryEntry) (result : StepResult)
    (a : Action) (o : Observation) : HistoryEntry :=
  {| stateInfo_ := stateInfo_ entry;
     action_ := Some a;
     transitionParameters_ := transitionParameters result;
     observation_ := Some o;
     immediateReward_ := reward result;
     associatedBeliefNode_ := associatedBeliefNode_ entry |}.

Definition set_immediateReward (entry : HistoryEntry) (r : double) : HistoryEntry :=
  {| stateInfo_ := stateInfo_ entry;
     action_ := action_ entry;
     transitionParameters_ := transitionParameters_ entry;
     observation_ := observation_ entry;
     immediateReward_ := r;
     associatedBeliefNode_ := associatedBeliefNode_ entry |}.

Definition set_associatedBeliefNode (entry : HistoryEntry) (node : BeliefNode)
    : HistoryEntry :=
  {| stateInfo_ := stateInfo_ entry;
     action_ := action_ entry;
     transitionParameters_ := transitionParameters_ entry;
     observation_ := observation_ entry;
     immediateReward_ := immediateReward_ entry;
     associatedBeliefNode_ := Some node |}.

(** The calls by which [extendSequence] acts on its collaborators, in the
    order of their arguments at the call site. *)
Inductive Event :=
| CallHeuristic (entry : HistoryEntry) (state : State) (data : HistoricalData)
| CallUpdateEstimate (node : BeliefNode) (rewardDelta : double) (visitDelta : Z)
| CallCreateOrGetChild (node : BeliefNode) (a : Action) (o : Observation)
| CallUpdateImmediate (node : BeliefNode) (a : Action) (o : Observation)
    (reward : double) (visitDelta : Z)
| CallCreateOrGetInfo (state : State)
| CallAddEntry (info : StateInfo)
| CallRegisterNode (info : StateInfo) (node : BeliefNode).

(** A step generator is an object with state [Gen].  It is bound to the
    [SearchStatus] of the search that made it ([status_] is a reference):
    every call takes the status as it stands and gives it back.  It sees
    the solver's world [W] and does not write to it (its arguments are
    pointers to const).  [None]: the call has no defined result. *)
Class StepGenerator (W Gen : Type) := {
  getStep : Gen -> W -> SearchStatus -> HistoryEntry -> State -> HistoricalData ->
            option (StepResult * Gen * SearchStatus)
}.

(** [StepGeneratorFactory::createGenerator] returns an owning pointer to
    the generator it made, and may set the status (construction that fails
    leaves it UNINITIALIZED).  [None]: the construction has no defined
    result. *)
Class StepGeneratorFactory (W Factory Gen : Type) := {
  createGenerator : Factory -> W -> SearchStatus -> HistoryEntry -> State ->
                    HistoricalData -> option (Gen * SearchStatus)
}.

(** Modelled from the spec: Solver.hpp, Model.hpp, BeliefTree.hpp,
    BeliefNode.hpp, StatePool.hpp and HistoryEntry.cpp are not among the
    sources.  [W] is everything the solver owns (belief tree, state pool,
    model); these are the operations on it that [extendSequence] calls,
    among them the "statistic-update entry points [updateEstimate(belief,
    rewardDelta, visitDelta)] and [updateImmediate(belief, action,
    observation, reward, visitDelta)]". *)
Class Solver (W : Type) := {
  (* [solver_->getModel()->isTerminal(state)] *)
  model_isTerminal : W -> State -> bool;
  (* [node->getDepth()] *)
  getDepth : W -> BeliefNode -> Z;
  (* [node->getHistoricalData()] *)
  getHistoricalData : W -> BeliefNode -> HistoricalData;
  updateEstimate : W -> BeliefNode -> double -> Z -> W;
  updateImmediate : W -> BeliefNode -> Action -> Observation -> double -> Z -> W;
  (* [solver_->getPolicy()->createOrGetChild(node, action, observation)] *)
  policy_createOrGetChild : W -> BeliefNode -> Action -> Observation -> BeliefNode * W;
  (* [solver_->getStatePool()->createOrGetInfo(state)] *)
  createOrGetInfo : W -> State -> StateInfo * W;
  (* what [entry->registerNode(node)] does to the belief node *)
  registerNode : W -> StateInfo -> BeliefNode -> W
}.
End Types.

(** *** StagedStepGenerator *)

(** [iterator_] is a const_iterator into [factories_]; it is represented by
    the part of [factories_] from its position on: [cend()] is [[]], [*it]
    the head and [it++] the tail. *)
Record StagedStepGenerator (Factory Gen : Type) := mkStaged {
  factories_ : list Factory;
  iterator_ : list Factory;
  generator_ : option Gen
}.
Arguments mkStaged {Factory Gen}.
Arguments factories_ {Factory Gen}.
Arguments iterator_ {Factory Gen}.
Arguments generator_ {Factory Gen}.

Section Staged.
Context {D : Domain} {W Factory Gen : Type}.
Context {SG : StepGenerator W Gen} {SF : StepGeneratorFactory W Factory Gen}.

(** [StagedStepGenerator::StagedStepGenerator(status, factories, entry,
    state, data)].  [*iterator_] at [cbegin()] of an empty vector is a
    dereference of the end iterator. *)
Definition StagedStepGenerator_new (w : W) (status : SearchStatus)
    (factories : list Factory) (entry : HistoryEntry) (state : State)
    (data : HistoricalData)
    : option (StagedStepGenerator Factory Gen * SearchStatus) :=
  match factories with
  | [] => None
  | first :: rest =>
      match createGenerator first w status entry state data with
      | None => None
      | Some (g, status') =>
          Some ({| factories_ := factories; iterator_ := rest;
                   generator_ := Some g |}, status')
      end
  end.

(** The [while (result.action == nullptr)] loop of [getStep]; [it] is
    [iterator_] and [g] the generator that produced [result]. *)
Fixpoint getStep_while (factories it : list Factory) (w : W)
    (entry : HistoryEntry) (state : State) (data : HistoricalData)
    (status : SearchStatus) (result : StepResult) (g : Gen)
    : option (StepResult * StagedStepGenerator Factory Gen * SearchStatus) :=
  match action result with
  | Some _ =>
      Some (result,
            {| factories_ := factories; iterator_ := it; generator_ := Some g |},
            status)
  | None =>
      match it with
      | [] =>
          (* iterator_ == factories_.cend() *)
          Some (result,
                {| factories_ := factories; iterator_ := []; generator_ := None |},
                status)
      | next :: it' =>
          if decide (status = FINISHED) then
            Some (result,
                  {| factories_ := factories; iterator_ := it; generator_ := None |},
                  status)
          else
            match createGenerator next w status entry state data with
            | None => None
            | Some (g1, status1) =>
                match getStep g1 w status1 entry state data with
                | None => None
                | Some (result1, g1', status2) =>
                    getStep_while factories it' w entry state data status2 result1 g1'
                end
            end
      end
  end.

(** [Model::StepResult StagedStepGenerator::getStep(entry, state, data)] *)
Definition StagedStepGenerator_getStep (s : StagedStepGenerator Factory Gen)
    (w : W) (status : SearchStatus) (entry : HistoryEntry) (state : State)
    (data : HistoricalData)
    : option (StepResult * StagedStepGenerator Factory Gen * SearchStatus) :=
  match generator_ s with
  | None => None
  | Some g =>
      match getStep g w status entry state data with
      | None => None
      | Some (result, g', status') =>
          getStep_while (factories_ s) (iterator_ s) w entry state data
                        status' result g'
      end
  end.

(** [class StagedStepGenerator : public StepGenerator] *)
#[export] Instance Staged_StepGenerator
    : StepGenerator W (StagedStepGenerator Factory Gen) :=
  {| getStep := StagedStepGenerator_getStep |}.

(** [StagedStepGeneratorFactory], which holds [factories_], and its
    [createGenerator]: [std::make_unique<StagedStepGenerator>(...)]. *)
#[export] Instance Staged_StepGeneratorFactory
    : StepGeneratorFactory W (list Factory) (StagedStepGenerator Factory Gen) :=
  {| createGenerator factories w status entry state data :=
       StagedStepGenerator_new w status factories entry state data |}.

(** A stage that declines at once: whatever unfinished status it is made
    under, its generator is made and answers its first call with no action,
    without setting FINISHED. *)
Definition declines (f : Factory) (w : W) (entry : HistoryEntry) (state : State)
    (data : HistoricalData) : Prop :=
  forall status, status <> FINISHED ->
    exists g status1 result g' status2,
      createGenerator f w status entry state data = Some (g, status1)
      /\ getStep g w status1 entry state data = Some (result, g', status2)
      /\ action result = None
      /\ status2 <> FINISHED.
End Staged.
(** *** BasicSearchStrategy *)

(** What a call either gives back, or why it gives nothing back: a call
    through a null pointer ([Undefined]), or a loop that is still running
    when the fuel of the embedding is spent ([OutOfFuel]). *)
Inductive Outcome (A : Type) :=
| Returns (a : A)
| Undefined
| OutOfFuel.
Arguments Returns {A}.
Arguments Undefined {A}.
Arguments OutOfFuel {A}.

(** [BasicSearchStrategy]: [solver_] is the world [W] with its [Solver]
    operations, threaded through the call. *)
Record BasicSearchStrategy {D : Domain} (Factory : Type) := mkStrategy {
  factory_ : Factory;
  heuristic_ : HistoryEntry -> State -> HistoricalData -> double
}.
Arguments mkStrategy {D Factory}.
Arguments factory_ {D Factory}.
Arguments heuristic_ {D Factory}.

(** The last entry of a sequence and the entries before it
    ([HistorySequence::getLastEntry]; there is none in an empty sequence). *)
Fixpoint getLastEntry {A : Type} (sequence : list A) : option (list A * A) :=
  match sequence with
  | [] => None
  | x :: rest =>
      match getLastEntry rest with
      | None => Some ([], x)
      | Some (before, last) => Some (x :: before, last)
      end
  end.

Section Strategy.
Context {D : Domain} {W Factory Gen : Type}.
Context {SV : Solver W} {SG : StepGenerator W Gen}
        {SF : StepGeneratorFactory W Factory Gen}.

(** The variables of [extendSequence] while its loop runs.  [currentEntry]
    points at the last entry of the sequence, so the sequence is [earlier]
    followed by [currentEntry]; [calls] is the list of calls made so
    far. *)
Record Loop := mkLoop {
  isFirst : bool;
  status : SearchStatus;
  generator : Gen;
  earlier : list HistoryEntry;
  currentEntry : HistoryEntry;
  currentNode : BeliefNode;
  world : W;
  calls : list Event
}.

(** What the caller has after the call: the status returned, the
    sequence, the solver's world, and the calls that were made. *)
Record Final := mkFinal {
  returned : SearchStatus;
  sequence : list HistoryEntry;
  final_world : W;
  final_calls : list Event
}.

Inductive Flow :=
| Continue (l : Loop)   (* on to the next iteration *)
| Break (l : Loop)      (* [break] *)
| Return (l : Loop).    (* [return status] inside the loop *)

(** The loop body from [if (isFirst)] to [registerNode], for a result
    with action [a], observation [o] and next state [next]; [generator']
    and [status'] are the generator and the status after its [getStep]. *)
Definition take_step (l : Loop) (result : StepResult) (a : Action)
    (o : Observation) (next : State) (generator' : Gen)
    (status' : SearchStatus) : Loop :=
  let '(w1, calls1) :=
    if isFirst l then (world l, calls l)
    else (updateEstimate (world l) (currentNode l) 0%float 1,
          calls l ++ [CallUpdateEstimate (currentNode l) 0%float 1]) in
  let entry1 := record_step (currentEntry l) result a o in
  let '(nextNode, w2) := policy_createOrGetChild w1 (currentNode l) a o in
  let w3 := updateImmediate w2 (currentNode l) a o (reward result) 1 in
  let '(nextStateInfo, w4) := createOrGetInfo w3 next in
  let entry2 := set_associatedBeliefNode (new_entry nextStateInfo) nextNode in
  let w5 := registerNode w4 nextStateInfo nextNode in
  mkLoop false status' generator' (earlier l ++ [entry1]) entry2 nextNode w5
         (calls1 ++ [CallCreateOrGetChild (currentNode l) a o;
                     CallUpdateImmediate (currentNode l) a o (reward result) 1;
                     CallCreateOrGetInfo next;
                     CallAddEntry nextStateInfo;
                     CallRegisterNode nextStateInfo nextNode]).

(** One iteration of [while (true)]. *)
Definition iteration (maximumDepth : Z) (l : Loop) : option Flow :=
  if maximumDepth <=? getDepth (world l) (currentNode l) then
    Some (Break (mkLoop (isFirst l) OUT_OF_STEPS (generator l) (earlier l)
                        (currentEntry l) (currentNode l) (world l) (calls l)))
  else
    match getStep (generator l) (world l) (status l) (currentEntry l)
                  (entry_getState (currentEntry l))
                  (getHistoricalData (world l) (currentNode l)) with
    | None => None
    | Some (result, generator', status') =>
        match action result with
        | None =>
            Some (Break (mkLoop (isFirst l) status' generator' (earlier l)
                                (currentEntry l) (currentNode l) (world l) (calls l)))
        | Some a =>
            match observation result, nextState result with
            | Some o, Some next =>
                if isTerminal result then
                  Some (Return (take_step l result a o next generator' FINISHED))
                else
                  Some (Continue (take_step l result a o next generator' status'))
            | _, _ => None
            end
        end
    end.

(** [k] iterations, each of which goes on to the next. *)
Fixpoint continues (k : nat) (maximumDepth : Z) (l : Loop) : option Loop :=
  match k with
  | O => Some l
  | S k' =>
      match iteration maximumDepth l with
      | Some (Continue l') => continues k' maximumDepth l'
      | _ => None
      end
  end.

(** [return status;] *)
Definition leave (l : Loop) : Final :=
  {| returned := status l;
     sequence := earlier l ++ [currentEntry l];
     final_world := world l;
     final_calls := calls l |}.

(** The code after the loop.  Every status but OUT_OF_STEPS is returned as
    it is (the branches differ in the message they print). *)
Definition finish (strategy : BasicSearchStrategy Factory) (l : Loop) : Final :=
  match status l with
  | OUT_OF_STEPS =>
      let state := entry_getState (currentEntry l) in
      let data := getHistoricalData (world l) (currentNode l) in
      let value := heuristic_ strategy (currentEntry l) state data in
      {| returned := FINISHED;
         sequence := earlier l ++ [set_immediateReward (currentEntry l) value];
         final_world := updateEstimate (world l) (currentNode l) value 0;
         final_calls :=
           calls l ++ [CallHeuristic (currentEntry l) state data;
                       CallUpdateEstimate (currentNode l) value 0] |}
  | _ => leave l
  end.

(** The loop and what follows it. *)
Fixpoint extendLoop (fuel : nat) (strategy : BasicSearchStrategy Factory)
    (maximumDepth : Z) (l : Loop) : Outcome Final :=
  match fuel with
  | O => OutOfFuel
  | S fuel' =>
      match iteration maximumDepth l with
      | None => Undefined
      | Some (Continue l') => extendLoop fuel' strategy maximumDepth l'
      | Some (Break l') => Returns (finish strategy l')
      | Some (Return l') => Returns (leave l')
      end
  end.

(** [SearchStatus BasicSearchStrategy::extendSequence(HistorySequence
    *sequence, long maximumDepth)] *)
Definition extendSequence (fuel : nat) (strategy : BasicSearchStrategy Factory)
    (w : W) (sequence : list HistoryEntry) (maximumDepth : Z) : Outcome Final :=
  match getLastEntry sequence with
  | None => Undefined
  | Some (before, currentEntry) =>
      match associatedBeliefNode_ currentEntry with
      | None => Undefined
      | Some currentNode =>
          match createGenerator (factory_ strategy) w UNINITIALIZED currentEntry
                                (entry_getState currentEntry)
                                (getHistoricalData w currentNode) with
          | None => Undefined
          | Some (generator, status) =>
              if decide (status = UNINITIALIZED) then
                Returns (mkFinal status sequence w [])
              else if model_isTerminal w (entry_getState currentEntry) then
                Returns (mkFinal ERROR sequence w [])
              else
                match action_ currentEntry with
                | Some _ => Returns (mkFinal ERROR sequence w [])
                | None =>
                    extendLoop fuel strategy maximumDepth
                      (mkLoop true status generator before currentEntry
                              currentNode w [])
                end
          end
      end
  end.

(** The calls of one step of the loop that yields an action: from belief
    [node], taking [a], seeing [o], for reward [r], to the state [next]
    held by [info] and the child belief [child]. *)
Record Step := mkStep {
  step_action : Action;
  step_observation : Observation;
  step_reward : double;
  step_next : State;
  step_info : StateInfo;
  step_child : BeliefNode
}.

Definition step_calls (first : bool) (node : BeliefNode) (s : Step) : list Event :=
  (if first then [] else [CallUpdateEstimate node 0%float 1])
  ++ [CallCreateOrGetChild node (step_action s) (step_observation s);
      CallUpdateImmediate node (step_action s) (step_observation s) (step_reward s) 1;
      CallCreateOrGetInfo (step_next s);
      CallAddEntry (step_info s);
      CallRegisterNode (step_info s) (step_child s)].

(** The calls of a path of steps that starts at belief [node]: each step
    starts where the one before it ended. *)
Fixpoint path_calls (first : bool) (node : BeliefNode) (path : list Step)
    : list Event :=
  match path with
  | [] => []
  | s :: path' => step_calls first node s ++ path_calls false (step_child s) path'
  end.

(** The belief node that a path ends at. *)
Definition path_end (node : BeliefNode) (path : list Step) : BeliefNode :=
  fold_left (fun _ s => step_child s) path node.


(** Modelled from the spec: BeliefNode.hpp and BeliefTree.hpp are not among
    the sources.  "Depth (ordered sequence position from root)": the child
    that [createOrGetChild] gives is one deeper than its parent, and the
    other operations that [extendSequence] calls leave the depth of every
    node alone. *)
Definition depth_laws : Prop :=
  (forall w node a o,
      getDepth (snd (policy_createOrGetChild w node a o))
               (fst (policy_createOrGetChild w node a o))
      = getDepth w node + 1)
  /\ (forall w node q v n, getDepth (updateEstimate w node q v) n = getDepth w n)
  /\ (forall w node a o q v n,
        getDepth (updateImmediate w node a o q v) n = getDepth w n)
  /\ (forall w state n, getDepth (snd (createOrGetInfo w state)) n = getDepth w n)
  /\ (forall w info node n, getDepth (registerNode w info node) n = getDepth w n).

(** An entry that a step of the loop has completed. *)
Definition completed (entry : HistoryEntry) : Prop :=
  action_ entry <> None /\ observation_ entry <> None.

(** An entry registered under a belief node. *)
Definition registered (entry : HistoryEntry) : Prop :=
  associatedBeliefNode_ entry <> None.

End Strategy.

Arguments CallUpdateEstimate {D} node rewardDelta%_float visitDelta%_Z.
Arguments CallUpdateImmediate {D} node a o reward%_float visitDelta%_Z.

End Search.

(** ** A small problem to run the code on

    Everything is a number.  The belief tree is a chain: belief node [n] has
    depth [n] and its child, for every action and observation, is [n + 1].
    State 0 is terminal.  The solver keeps, for every belief node, the visit
    count and total value of the updates it received. *)

Module Chain.
Import Search.

#[export] Instance domain : Domain := {|
  State := nat; Action := nat; Observation := nat;
  TransitionParameters := unit; HistoricalData := nat;
  StateInfo := nat; BeliefNode := nat;
  getState := fun info => info
|}.

Definition Estimates := gmap nat (Z * double).

Definition add_to (w : Estimates) (node : nat) (rewardDelta : double)
    (visitDelta : Z) : Estimates :=
  let '(visits, total) := default (0, 0%float) (w !! node) in
  <[node := (long_wrap (visits + visitDelta), (total + rewardDelta)%float)]> w.

#[export] Instance solver : Solver (D := domain) Estimates := {
  model_isTerminal _ (state : nat) := Nat.eqb state 0;
  getDepth _ (node : nat) := Z.of_nat node;
  getHistoricalData _ (node : nat) := node;
  updateEstimate w (node : nat) rewardDelta visitDelta :=
    add_to w node rewardDelta visitDelta;
  updateImmediate w (node : nat) _ _ reward visitDelta :=
    add_to w node reward visitDelta;
  policy_createOrGetChild w (node : nat) _ _ := (S node, w);
  createOrGetInfo w (state : nat) := (state, w);
  registerNode w _ _ := w
}.

(** No action: the default-constructed [Model::StepResult]. *)
Definition no_step : StepResult (D := domain) :=
  mkStepResult None None None 0%float None false.

(** A step with action [a], observation [o], reward [r], to state [next]. *)
Definition step (a o : nat) (r : double) (next : nat) (terminal : bool)
    : StepResult (D := domain) :=
  mkStepResult (Some a) (Some tt) (Some o) r (Some next) terminal.

(** A generator that plays a script: each call gives the next result of the
    script and sets the status that goes with it; at the end of the script
    it gives no action and leaves the status alone. *)
Definition Script := list (StepResult (D := domain) * SearchStatus).

#[export] Instance script_generator
    : StepGenerator (D := domain) Estimates Script := {
  getStep (script : Script) _ status _ _ _ :=
    match script with
    | [] => Some (no_step, [], status)
    | (result, status') :: script' => Some (result, script', status')
    end
}.

(** Its factory: the status that construction sets, and the script. *)
#[export] Instance script_factory
    : StepGeneratorFactory (D := domain) Estimates (SearchStatus * Script) Script := {
  createGenerator (factory : SearchStatus * Script) _ _ _ _ _ :=
    Some (snd factory, fst factory)
}.

(** A first entry, at the root belief, in state [state]. *)
Definition entry_at (state node : nat) : HistoryEntry (D := domain) :=
  set_associatedBeliefNode (new_entry (D := domain) state) node.

Definition heuristic : HistoryEntry (D := domain) -> nat -> nat -> double :=
  fun _ _ _ => 10%float.

(** A generator that declines at once and leaves the status INITIAL. *)
Definition declining : BasicSearchStrategy (SearchStatus * Script) :=
  mkStrategy (INITIAL, []) heuristic.

(** A generator that declines at once and reports an error. *)
Definition failing : BasicSearchStrategy (SearchStatus * Script) :=
  mkStrategy (INITIAL, [(no_step, ERROR)]) heuristic.

(** A generator with two steps to offer, then none. *)
Definition two_steps : BasicSearchStrategy (SearchStatus * Script) :=
  mkStrategy (INITIAL, [(step 7 8 1%float 5 false, INITIAL);
                        (step 7 8 1%float 6 false, INITIAL);
                        (no_step, FINISHED)]) heuristic.

(** Two stages: the first has one step to offer, the second two. *)
Definition stage_A : SearchStatus * Script :=
  (INITIAL, [(step 1 1 1%float 5 false, INITIAL)]).
Definition stage_B : SearchStatus * Script :=
  (INITIAL, [(step 2 2 2%float 6 false, INITIAL);
             (step 3 3 3%float 7 false, INITIAL)]).

Definition staged : BasicSearchStrategy (list (SearchStatus * Script)) :=
  mkStrategy [stage_A; stage_B] heuristic.

(** The staged generator over the two stages, as its constructor leaves it. *)
Definition staged_start : StagedStepGenerator (SearchStatus * Script) Script :=
  mkStaged [stage_A; stage_B] [stage_B] (Some (snd stage_A)).

Arguments step (a o)%_nat r%_float next%_nat terminal.
Arguments entry_at (state node)%_nat.


(** A factory that fails to make its generator: the status stays
    UNINITIALIZED. *)
Definition unmade : BasicSearchStrategy (SearchStatus * Script) :=
  mkStrategy (UNINITIALIZED, []) heuristic.

(** A generator whose first step is terminal. *)
Definition ending : BasicSearchStrategy (SearchStatus * Script) :=
  mkStrategy (INITIAL, [(step 7 8 1 0 true, INITIAL)]) heuristic.

(** A generator that gives up with OUT_OF_STEPS, as a rollout that has used
    up its steps does. *)
Definition cut_short : BasicSearchStrategy (SearchStatus * Script) :=
  mkStrategy (INITIAL, [(step 7 8 1 5 false, INITIAL); (no_step, OUT_OF_STEPS)])
             heuristic.

End Chain.

(** * Properties *)

(** ** Machine numbers *)

Lemma long_wrap_id (z : Z) : LONG_MIN <= z <= LONG_MAX -> long_wrap z = z.
Proof.
  unfold long_wrap, LONG_MIN, LONG_MAX. intros Hz.
  rewrite Z.mod_small; lia.
Qed.

Lemma long_wrap_range (z : Z) : LONG_MIN <= long_wrap z <= LONG_MAX.
Proof.
  unfold long_wrap, LONG_MIN, LONG_MAX.
  pose proof (Z.mod_pos_bound (z + 2 ^ 63) (2 ^ 64) ltac:(lia)). lia.
Qed.

Example double_of_long_3 : double_of_long 3 = 3%float.
Proof. reflexivity. Qed.

Example double_of_long_neg : double_of_long (-2) = (-2)%float.
Proof. reflexivity. Qed.

Example long_wrap_overflow : long_wrap (LONG_MAX + 1) = LONG_MIN.
Proof. reflexivity. Qed.

(** ** ActionNode *)

Section ActionNodeFacts.
Import ActionNode.
Context {Observation BeliefNode OM : Type}.
Context {OMops : ObservationMapping Observation BeliefNode OM}.

Implicit Types (node : ActionNode OM) (obs : Observation) (c : QCall).

(** What [updateQValue] leaves in each field. *)
Lemma updateQValue_fields node increase :
  nParticles_ (updateQValue node increase) = nParticles_ node
  /\ totalQValue_ (updateQValue node increase)
     = (totalQValue_ node + increase)%float
  /\ meanQValue_ (updateQValue node increase)
     = (if 0 <? nParticles_ node
        then ((totalQValue_ node + increase) / double_of_long (nParticles_ node))%float
        else 0%float)
  /\ obsMap_ (updateQValue node increase) = obsMap_ node.
Proof. repeat split. Qed.

Lemma updateQValue_mean node increase :
  meanQValue_ (updateQValue node increase) = mean_of (updateQValue node increase).
Proof. reflexivity. Qed.

Lemma updateQValue_delta_mean node increase deltaNParticles :
  meanQValue_ (updateQValue_delta node increase deltaNParticles)
  = mean_of (updateQValue_delta node increase deltaNParticles).
Proof. reflexivity. Qed.

Lemma call_mean node c : meanQValue_ (call node c) = mean_of (call node c).
Proof. destruct c; reflexivity. Qed.

Lemma calls_snoc node (cs : list QCall) c :
  calls node (cs ++ [c]) = call (calls node cs) c.
Proof. unfold calls. now rewrite fold_left_app. Qed.

(** C1. After every call of either overload of [updateQValue], in every
    sequence of such calls on every node, [meanQValue_] is
    [totalQValue_ / nParticles_] when [nParticles_ > 0] and is 0 when
    [nParticles_ = 0]; and the two-argument overload computes the mean
    from the particle count after its adjustment by [deltaNParticles]. *)
Theorem updateQValue_keeps_mean node (cs : list QCall) c :
  let after := calls node (cs ++ [c]) in
  (0 < getNParticles after ->
     getMeanQValue after
     = (getTotalQValue after / double_of_long (getNParticles after))%float)
  /\ (getNParticles after = 0 -> getMeanQValue after = 0%float)
  /\ (forall increase deltaNParticles,
        let adjusted := long_wrap (getNParticles node + deltaNParticles) in
        let updated := updateQValue_delta node increase deltaNParticles in
        getNParticles updated = adjusted
        /\ getTotalQValue updated = (getTotalQValue node + increase)%float
        /\ getMeanQValue updated
           = (if 0 <? adjusted
              then ((getTotalQValue node + increase) / double_of_long adjusted)%float
              else 0%float)).
Proof.
  intros after. unfold getMeanQValue, getTotalQValue, getNParticles.
  assert (Hmean : meanQValue_ after = mean_of after).
  { unfold after. rewrite calls_snoc. apply call_mean. }
  unfold mean_of in Hmean. repeat split.
  - intros Hpos. rewrite Hmean.
    destruct (Z.ltb_spec 0 (nParticles_ after)); [reflexivity | lia].
  - intros Hzero. rewrite Hmean, Hzero. reflexivity.
Qed.

(** The count that a sequence of calls asks for, when none of the counts
    on the way leaves the range of a count. *)
Lemma calls_in_range_nonneg (cs : list QCall) : forall node,
  0 <= nParticles_ node ->
  counts_in_range (nParticles_ node) cs = true ->
  0 <= nParticles_ (calls node cs).
Proof.
  induction cs as [| c cs IH]; intros node Hnode Hrange; [exact Hnode |].
  destruct c as [increase | increase d]; cbn [counts_in_range] in Hrange.
  - apply (IH (updateQValue node increase)); assumption.
  - apply andb_prop in Hrange as [Hd Hrest].
    apply andb_prop in Hd as [Hlo Hhi].
    apply Z.leb_le in Hlo, Hhi.
    assert (Hwrap : long_wrap (nParticles_ node + d) = nParticles_ node + d).
    { apply long_wrap_id. unfold LONG_MIN. lia. }
    apply (IH (updateQValue_delta node increase d)); cbn; rewrite Hwrap;
      [lia | exact Hrest].
Qed.

Lemma counts_in_range_firstn (cs : list QCall) : forall count (k : nat),
  counts_in_range count cs = true ->
  counts_in_range count (firstn k cs) = true.
Proof.
  induction cs as [| c cs IH]; intros count k Hrange.
  - now destruct k.
  - destruct k as [| k]; [reflexivity |].
    destruct c as [increase | increase d]; cbn [firstn counts_in_range] in *.
    + now apply IH.
    + apply andb_prop in Hrange as [Hd Hrest].
      rewrite Hd. cbn. now apply IH.
Qed.

(** C8, as amended. [nParticles_] is not kept non-negative by the code: a
    negative [deltaNParticles] is added as it is.  It stays non-negative
    after every call of a sequence in which no call asks for a count
    below zero (or above LONG_MAX); the one-argument overload leaves it
    alone. *)
Theorem nParticles_nonneg_while_in_range node (cs : list QCall) (k : nat) :
  0 <= getNParticles node ->
  counts_in_range (getNParticles node) cs = true ->
  0 <= getNParticles (calls node (firstn k cs)).
Proof.
  unfold getNParticles. intros Hnode Hrange.
  apply calls_in_range_nonneg; [exact Hnode |].
  now apply counts_in_range_firstn.
Qed.

(** A second lookup after [createOrGetChild] finds the child. *)
Lemma createOrGetChild_found node obs child added node' :
  creates_then_finds ->
  createOrGetChild node obs = Some (child, added, node') ->
  getChild node' obs = Some (Some child).
Proof.
  intros Hlaw. unfold createOrGetChild, getChild.
  destruct (obsMap_ node) as [m |] eqn:Hmap; [| discriminate].
  destruct (getBelief m obs) as [found |] eqn:Hget.
  - intros [= <- <- <-]. now rewrite Hmap, Hget.
  - specialize (Hlaw m obs Hget).
    destruct (createBelief m obs) as [made m'].
    intros [= <- <- <-]. cbn in *. now rewrite Hlaw.
Qed.

(** C7. [createOrGetChild] called a second time with the same observation
    returns the child of the first call with the flag false, and leaves
    the node as the first call left it: no second child is made. *)
Theorem createOrGetChild_idempotent node obs child added node' :
  creates_then_finds ->
  createOrGetChild node obs = Some (child, added, node') ->
  createOrGetChild node' obs = Some (child, false, node').
Proof.
  intros Hlaw Hfirst.
  pose proof (createOrGetChild_found _ _ _ _ _ Hlaw Hfirst) as Hfound.
  unfold createOrGetChild. now rewrite Hfound.
Qed.
End ActionNodeFacts.

Section ActionNodeExamples.
Import ActionNode.

Lemma TableMapping_creates_then_finds : creates_then_finds (OM := TableMapping).
Proof. intros m obs _. cbn. apply lookup_insert_eq. Qed.

Example mean_after_two_visits :
  getMeanQValue (calls fresh [UpdateDelta 1 1; UpdateDelta 2 1]) = 1.5%float.
Proof. reflexivity. Qed.

Example mean_without_particles :
  getMeanQValue (calls fresh [Update 4]) = 0%float
  /\ getTotalQValue (calls fresh [Update 4]) = 4%float.
Proof. split; reflexivity. Qed.

Example mean_after_retraction :
  getMeanQValue (calls fresh [UpdateDelta 3 2; UpdateDelta 0 (-1)]) = 3%float.
Proof. reflexivity. Qed.

(** C8 as stated fails: retracting a particle from a fresh node leaves
    [nParticles_] at -1. *)
Lemma nParticles_negative :
  getNParticles (calls fresh [UpdateDelta 0 (-1)]) = -1
  /\ ~ 0 <= getNParticles (calls fresh [UpdateDelta 0 (-1)]).
Proof.
  assert (Hcount : getNParticles (calls fresh [UpdateDelta 0 (-1)]) = -1)
    by reflexivity.
  split; [exact Hcount | rewrite Hcount; lia].
Qed.

Lemma nParticles_nonneg_witness :
  0 <= getNParticles fresh
  /\ counts_in_range (getNParticles fresh)
       [UpdateDelta 1.5 2; Update 0.5; UpdateDelta 0 (-1)] = true
  /\ 0 <= getNParticles
            (calls fresh (firstn 3 [UpdateDelta 1.5 2; Update 0.5; UpdateDelta 0 (-1)])).
Proof.
  assert (Hnode : 0 <= getNParticles fresh) by (vm_compute; discriminate).
  assert (Hrange : counts_in_range (getNParticles fresh)
                     [UpdateDelta 1.5 2; Update 0.5; UpdateDelta 0 (-1)] = true)
    by reflexivity.
  split; [exact Hnode |]. split; [exact Hrange |].
  exact (nParticles_nonneg_while_in_range fresh _ 3 Hnode Hrange).
Defined.

Lemma createOrGetChild_idempotent_witness :
  let first := createOrGetChild fresh 7%nat in
  let node' := mkActionNode 0 0%float 0%float
                 (Some (mkTable (<[7%nat := 0%nat]> ∅) 1)) in
  first = Some (0%nat, true, node')
  /\ createOrGetChild node' 7%nat = Some (0%nat, false, node').
Proof.
  assert (Hfirst : createOrGetChild fresh 7%nat
                   = Some (0%nat, true,
                           mkActionNode 0 0%float 0%float
                             (Some (mkTable (<[7%nat := 0%nat]> ∅) 1))))
    by reflexivity.
  split; [exact Hfirst |].
  exact (createOrGetChild_idempotent fresh 7%nat 0%nat true _
           TableMapping_creates_then_finds Hfirst).
Defined.
End ActionNodeExamples.

(** ** ActionMapping *)

Section ActionMappingFacts.
Import ActionMapping.
Context {Action Entry M : Type} {AM : ActionMapping Action Entry M}.

(** C10. The default [update] needs [getEntry(action)] to be non-null:
    then it returns what the entry's own [update] returns (and has its
    effect on the mapping); without an entry for the action it is a call
    through a null pointer. *)
Theorem update_delegates (m : M) (action : Action) (deltaNVisits : Z)
    (deltaTotalQ : double) :
  (forall entry : Entry,
      getEntry m action = Some entry ->
      update m action deltaNVisits deltaTotalQ
      = Some (entry_update m entry deltaNVisits deltaTotalQ))
  /\ (getEntry m action = None ->
      update m action deltaNVisits deltaTotalQ = None).
Proof.
  unfold update. split.
  - intros entry Hentry. now rewrite Hentry.
  - intros Hnone. now rewrite Hnone.
Qed.
End ActionMappingFacts.

Section ActionMappingExamples.
Import ActionMapping.

Example update_visited_entry :
  update table 2%nat 1 3%float
  = Some (true, <[2%nat := (2, 7%float)]> ∅).
Proof. vm_compute. reflexivity. Qed.

Example update_without_change :
  update table 2%nat 1 0%float = Some (false, <[2%nat := (2, 4%float)]> ∅).
Proof. vm_compute. reflexivity. Qed.

Example update_unknown_action : update table 5%nat 1 3%float = None.
Proof. reflexivity. Qed.
End ActionMappingExamples.

(** ** StagedStepGenerator *)

Section StagedFacts.
Import Search.
Context {D : Domain} {W Factory Gen : Type}.
Context {SG : StepGenerator W Gen} {SF : StepGeneratorFactory W Factory Gen}.

Implicit Types (w : W) (status : SearchStatus) (entry : HistoryEntry)
  (state : State) (data : HistoricalData) (result : StepResult) (g : Gen)
  (factories it : list Factory) (s : StagedStepGenerator Factory Gen).

(** C9. The constructor needs a factory: with none, [*iterator_] is a
    dereference of the end iterator.  With a first factory it builds that
    factory's generator on the spot, and leaves it as the active
    generator with the cursor at the second factory (the factories after
    the first). *)
Theorem StagedStepGenerator_new_needs_factory w status entry state data :
  StagedStepGenerator_new w status [] entry state data = None
  /\ (forall (first : Factory) (rest : list Factory) g status',
        createGenerator first w status entry state data = Some (g, status') ->
        StagedStepGenerator_new w status (first :: rest) entry state data
        = Some (mkStaged (first :: rest) rest (Some g), status')
        /\ hd_error rest = nth_error (first :: rest) 1).
Proof.
  split; [reflexivity |].
  intros first rest g status' Hcreate. cbn. rewrite Hcreate.
  split; [reflexivity | now destruct rest].
Qed.

(** The three ways through the loop of [getStep]. *)
Lemma getStep_while_action factories it w entry state data status result g :
  action result <> None ->
  getStep_while factories it w entry state data status result g
  = Some (result, mkStaged factories it (Some g), status).
Proof.
  intros Haction. destruct it; cbn; destruct (action result); congruence.
Qed.

Lemma getStep_while_stop factories it w entry state data status result g :
  action result = None ->
  status = FINISHED \/ it = [] ->
  getStep_while factories it w entry state data status result g
  = Some (result, mkStaged factories it None, status).
Proof.
  intros Haction Hstop. destruct it as [| next it']; cbn; rewrite Haction.
  - reflexivity.
  - destruct Hstop as [-> | Hnil]; [| discriminate].
    now destruct (decide (FINISHED = FINISHED)).
Qed.

Lemma getStep_while_advance factories next it' w entry state data status result g
    g1 status1 result1 g1' status2 :
  action result = None ->
  status <> FINISHED ->
  createGenerator next w status entry state data = Some (g1, status1) ->
  getStep g1 w status1 entry state data = Some (result1, g1', status2) ->
  getStep_while factories (next :: it') w entry state data status result g
  = getStep_while factories it' w entry state data status2 result1 g1'.
Proof.
  intros Haction Hstatus Hcreate Hstep. cbn. rewrite Haction.
  destruct (decide (status = FINISHED)); [contradiction |].
  now rewrite Hcreate, Hstep.
Qed.

(** A call of [getStep] never moves the cursor back, and what it leaves
    of the factories is a part of what it found. *)
Lemma getStep_while_suffix factories : forall it w entry state data status result g
    result' s' status',
  getStep_while factories it w entry state data status result g
  = Some (result', s', status') ->
  exists skipped, it = skipped ++ iterator_ s'.
Proof.
  induction it as [| next it' IH]; intros w entry state data status result g
    result' s' status'; cbn.
  - destruct (action result); intros [= <- <- <-]; now exists [].
  - destruct (action result).
    + intros [= <- <- <-]. now exists [].
    + destruct (decide (status = FINISHED)).
      * intros [= <- <- <-]. now exists [].
      * destruct (createGenerator next w status entry state data)
          as [[g1 status1] |]; [| discriminate].
        destruct (getStep g1 w status1 entry state data)
          as [[[result1 g1'] status2] |]; [| discriminate].
        intros Hrest. apply IH in Hrest as [skipped ->].
        now exists (next :: skipped).
Qed.

(** C4. Over the stages [A; B], where A has one step with an action to
    give and then gives none: the first [getStep] returns A's step, the
    second returns the first step of B, whose generator it makes itself.
    In general [getStep], with [result] the answer of the active
    generator: returns [result] and stays at its stage when [result] has
    an action; clears the active generator and returns [result] when it
    has no action and the status is FINISHED or no stage remains; and
    otherwise makes the generator of the next stage, moves the cursor
    past it, and carries on with the first answer of that generator.  So
    the cursor moves only when [result] has no action, the status is not
    FINISHED and a stage remains. *)
Theorem StagedStepGenerator_getStep_stages :
  (forall (A B : Factory) w0 status0 entry0 state0 data0
          w1 status1 entry1 state1 data1 w2 status2 entry2 state2 data2
          a0 statusA a1 stepA statusA1 a2 noneA statusA2
          b0 statusB b1 stepB statusB1,
      createGenerator A w0 status0 entry0 state0 data0 = Some (a0, statusA) ->
      getStep a0 w1 status1 entry1 state1 data1 = Some (stepA, a1, statusA1) ->
      action stepA <> None ->
      getStep a1 w2 status2 entry2 state2 data2 = Some (noneA, a2, statusA2) ->
      action noneA = None ->
      statusA2 <> FINISHED ->
      createGenerator B w2 statusA2 entry2 state2 data2 = Some (b0, statusB) ->
      getStep b0 w2 statusB entry2 state2 data2 = Some (stepB, b1, statusB1) ->
      let s0 := mkStaged [A; B] [B] (Some a0) in
      let s1 := mkStaged [A; B] [B] (Some a1) in
      let s2 := mkStaged [A; B] []
                  (match action stepB with Some _ => Some b1 | None => None end) in
      StagedStepGenerator_new w0 status0 [A; B] entry0 state0 data0
      = Some (s0, statusA)
      /\ StagedStepGenerator_getStep s0 w1 status1 entry1 state1 data1
         = Some (stepA, s1, statusA1)
      /\ StagedStepGenerator_getStep s1 w2 status2 entry2 state2 data2
         = Some (stepB, s2, statusB1))
  /\ (forall s w status entry state data g result g' status',
        generator_ s = Some g ->
        getStep g w status entry state data = Some (result, g', status') ->
        (action result <> None ->
           StagedStepGenerator_getStep s w status entry state data
           = Some (result, mkStaged (factories_ s) (iterator_ s) (Some g'), status'))
        /\ (action result = None ->
            status' = FINISHED \/ iterator_ s = [] ->
            StagedStepGenerator_getStep s w status entry state data
            = Some (result, mkStaged (factories_ s) (iterator_ s) None, status'))
        /\ (forall next it' g1 status1 result1 g1' status2,
              action result = None ->
              status' <> FINISHED ->
              iterator_ s = next :: it' ->
              createGenerator next w status' entry state data = Some (g1, status1) ->
              getStep g1 w status1 entry state data = Some (result1, g1', status2) ->
              StagedStepGenerator_getStep s w status entry state data
              = getStep_while (factories_ s) it' w entry state data
                              status2 result1 g1')
        /\ (forall result' s' status'',
              StagedStepGenerator_getStep s w status entry state data
              = Some (result', s', status'') ->
              iterator_ s' <> iterator_ s ->
              action result = None /\ status' <> FINISHED /\ iterator_ s <> [])).
Proof.
  split.
  - intros A B w0 status0 entry0 state0 data0 w1 status1 entry1 state1 data1
      w2 status2 entry2 state2 data2 a0 statusA a1 stepA statusA1 a2 noneA
      statusA2 b0 statusB b1 stepB statusB1
      HmakeA HstepA HactionA HnoneA Hnone Hstatus HmakeB HstepB s0 s1 s2.
    split; [| split].
    + unfold StagedStepGenerator_new. now rewrite HmakeA.
    + unfold StagedStepGenerator_getStep. cbn [generator_ s0].
      rewrite HstepA. now apply getStep_while_action.
    + unfold StagedStepGenerator_getStep. cbn [generator_ s1].
      rewrite HnoneA. cbn [factories_ iterator_ s1].
      rewrite (getStep_while_advance _ _ _ _ _ _ _ _ _ _ _ _ _ _ _
                 Hnone Hstatus HmakeB HstepB).
      unfold s2. destruct (action stepB) as [b |] eqn:HactionB.
      * apply getStep_while_action. congruence.
      * apply getStep_while_stop; [assumption | now right].
  - intros s w status entry state data g result g' status' Hactive Hstep.
    unfold StagedStepGenerator_getStep. rewrite Hactive, Hstep.
    split; [| split; [| split]].
    + apply getStep_while_action.
    + apply getStep_while_stop.
    + intros next it' g1 status1 result1 g1' status2 Hnone Hstatus Hit.
      rewrite Hit. now apply getStep_while_advance.
    + intros result' s' status'' Hcall Hmoved.
      destruct (action result) as [a |] eqn:Haction.
      { rewrite getStep_while_action in Hcall by congruence.
        injection Hcall as <- <- <-. now contradict Hmoved. }
      destruct (decide (status' = FINISHED)) as [Hfinished | Hrunning].
      { rewrite getStep_while_stop in Hcall by tauto.
        injection Hcall as <- <- <-. now contradict Hmoved. }
      destruct (iterator_ s) as [| next it'] eqn:Hit; [| easy].
      rewrite getStep_while_stop in Hcall by tauto.
      injection Hcall as <- <- <-. now contradict Hmoved.
Qed.
End StagedFacts.

Section StagedExamples.
Import Search Chain.

Example staged_new :
  StagedStepGenerator_new ∅ UNINITIALIZED [stage_A; stage_B] (entry_at 3 0) 3%nat 0%nat
  = Some (staged_start, INITIAL).
Proof. reflexivity. Qed.

Example staged_new_empty :
  StagedStepGenerator_new (Factory := SearchStatus * Script) ∅ UNINITIALIZED []
                          (entry_at 3 0) 3%nat 0%nat
  = None.
Proof. reflexivity. Qed.

Example staged_three_calls :
  exists s1 s2 s3,
    StagedStepGenerator_getStep staged_start ∅ INITIAL (entry_at 3 0) 3%nat 0%nat
    = Some (step 1 1 1 5 false, s1, INITIAL)
    /\ StagedStepGenerator_getStep s1 ∅ INITIAL (entry_at 5 1) 5%nat 1%nat
       = Some (step 2 2 2 6 false, s2, INITIAL)
    /\ StagedStepGenerator_getStep s2 ∅ INITIAL (entry_at 6 2) 6%nat 2%nat
       = Some (step 3 3 3 7 false, s3, INITIAL)
    /\ StagedStepGenerator_getStep s3 ∅ INITIAL (entry_at 7 3) 7%nat 3%nat
       = Some (no_step, mkStaged [stage_A; stage_B] [] None, INITIAL)
    /\ StagedStepGenerator_getStep (mkStaged [stage_A; stage_B] [] None)
         ∅ INITIAL (entry_at 7 3) 7%nat 3%nat
       = None.
Proof. do 3 eexists. repeat split. Qed.

Lemma StagedStepGenerator_getStep_stages_witness :
  StagedStepGenerator_new ∅ UNINITIALIZED [stage_A; stage_B] (entry_at 3 0) 3%nat 0%nat
  = Some (staged_start, INITIAL)
  /\ StagedStepGenerator_getStep staged_start ∅ INITIAL (entry_at 3 0) 3%nat 0%nat
     = Some (step 1 1 1 5 false,
             mkStaged [stage_A; stage_B] [stage_B] (Some []), INITIAL)
  /\ StagedStepGenerator_getStep
       (mkStaged [stage_A; stage_B] [stage_B] (Some [])) ∅ INITIAL
       (entry_at 5 1) 5%nat 1%nat
     = Some (step 2 2 2 6 false,
             mkStaged [stage_A; stage_B] [] (Some [(step 3 3 3 7 false, INITIAL)]),
             INITIAL).
Proof.
  destruct (StagedStepGenerator_getStep_stages
              (D := domain) (W := Estimates) (Factory := SearchStatus * Script)
              (Gen := Script)) as [Hstages _].
  refine (Hstages stage_A stage_B
            ∅ UNINITIALIZED (entry_at 3 0) 3%nat 0%nat
            ∅ INITIAL (entry_at 3 0) 3%nat 0%nat
            ∅ INITIAL (entry_at 5 1) 5%nat 1%nat
            (snd stage_A) INITIAL [] (step 1 1 1 5 false) INITIAL
            [] no_step INITIAL
            (snd stage_B) INITIAL [(step 3 3 3 7 false, INITIAL)]
            (step 2 2 2 6 false) INITIAL
            _ _ _ _ _ _ _ _);
    first [reflexivity | discriminate].
Defined.
End StagedExamples.

(** ** BasicSearchStrategy *)

Section StrategyFacts.
Import Search.
Context {D : Domain} {W Factory Gen : Type}.
Context {SV : Solver W} {SG : StepGenerator W Gen}
        {SF : StepGeneratorFactory W Factory Gen}.

Implicit Types (w : W) (entry : HistoryEntry) (node : BeliefNode)
  (strategy : BasicSearchStrategy Factory) (result : StepResult)
  (l : Loop (W := W) (Gen := Gen)) (final : Final (W := W))
  (path : list Step) (maximumDepth : Z) (fuel k : nat).

Lemma getLastEntry_snoc {A : Type} (before : list A) (x : A) :
  getLastEntry (before ++ [x]) = Some (before, x).
Proof.
  induction before as [| y before IH]; [reflexivity |].
  cbn. now rewrite IH.
Qed.

Lemma getLastEntry_Some {A : Type} (xs before : list A) (x : A) :
  getLastEntry xs = Some (before, x) -> xs = before ++ [x].
Proof.
  revert before. induction xs as [| y xs IH]; intros before; [discriminate |].
  cbn. destruct (getLastEntry xs) as [[before' last] |] eqn:Hlast.
  - intros [= <- <-]. cbn. f_equal. now apply IH.
  - intros [= <- <-]. destruct xs as [| z xs]; [reflexivity |].
    cbn in Hlast. destruct (getLastEntry xs) as [[? ?] |]; discriminate.
Qed.

(** The conditions under which [extendSequence] reaches its loop: there is
    a frontier entry, registered at a belief node; the factory made a
    generator and set a status other than UNINITIALIZED; the frontier
    state is not terminal and the frontier entry has no action. *)
Lemma extendSequence_enters fuel strategy w before entry node generator status
    maximumDepth :
  associatedBeliefNode_ entry = Some node ->
  createGenerator (factory_ strategy) w UNINITIALIZED entry (entry_getState entry)
                  (getHistoricalData w node) = Some (generator, status) ->
  status <> UNINITIALIZED ->
  model_isTerminal w (entry_getState entry) = false ->
  action_ entry = None ->
  extendSequence fuel strategy w (before ++ [entry]) maximumDepth
  = extendLoop fuel strategy maximumDepth
      (mkLoop true status generator before entry node w []).
Proof.
  intros Hnode Hmake Hstatus Hterminal Haction. unfold extendSequence.
  rewrite getLastEntry_snoc, Hnode, Hmake.
  destruct (decide (status = UNINITIALIZED)); [contradiction |].
  now rewrite Hterminal, Haction.
Qed.

(** C2. At the depth cutoff (the frontier belief node has depth
    [maximumDepth]; the frontier state is not terminal, the frontier entry
    has no action, the generator was made), [extendSequence] returns
    FINISHED; it makes two calls, one evaluation of the heuristic at the
    frontier and one [updateEstimate] of the frontier belief node with
    the heuristic value and visit delta 0; and the sequence it leaves is
    the one it found but for the frontier entry, whose immediate reward is
    now the heuristic value and whose other fields are as they were. *)
Theorem extendSequence_depth_cutoff fuel strategy w before entry node generator
    status maximumDepth :
  associatedBeliefNode_ entry = Some node ->
  createGenerator (factory_ strategy) w UNINITIALIZED entry (entry_getState entry)
                  (getHistoricalData w node) = Some (generator, status) ->
  status <> UNINITIALIZED ->
  model_isTerminal w (entry_getState entry) = false ->
  action_ entry = None ->
  getDepth w node = maximumDepth ->
  let state := entry_getState entry in
  let data := getHistoricalData w node in
  let value := heuristic_ strategy entry state data in
  exists last,
    extendSequence (S fuel) strategy w (before ++ [entry]) maximumDepth
    = Returns {| returned := FINISHED;
                 sequence := before ++ [last];
                 final_world := updateEstimate w node value 0;
                 final_calls := [CallHeuristic entry state data;
                                 CallUpdateEstimate node value 0] |}
    /\ immediateReward_ last = value
    /\ stateInfo_ last = stateInfo_ entry
    /\ action_ last = None
    /\ transitionParameters_ last = transitionParameters_ entry
    /\ observation_ last = observation_ entry
    /\ associatedBeliefNode_ last = Some node.
Proof.
  intros Hnode Hmake Hstatus Hterminal Haction Hdepth state data value.
  exists (set_immediateReward entry value). split.
  - rewrite (extendSequence_enters _ _ _ _ _ _ _ _ _ Hnode Hmake Hstatus
               Hterminal Haction).
    cbn [extendLoop]. unfold iteration. cbn [world currentNode].
    rewrite Hdepth, Z.leb_refl. reflexivity.
  - cbn. now repeat split.
Qed.

(** C5. With a terminal frontier state, or with a frontier entry that
    already has an action, [extendSequence] returns ERROR whatever the
    fuel, and has made no call: the sequence and the solver's world are
    as they were. *)
Theorem extendSequence_precondition_error fuel strategy w before entry node
    generator status maximumDepth :
  associatedBeliefNode_ entry = Some node ->
  createGenerator (factory_ strategy) w UNINITIALIZED entry (entry_getState entry)
                  (getHistoricalData w node) = Some (generator, status) ->
  status <> UNINITIALIZED ->
  model_isTerminal w (entry_getState entry) = true \/ action_ entry <> None ->
  extendSequence fuel strategy w (before ++ [entry]) maximumDepth
  = Returns {| returned := ERROR; sequence := before ++ [entry];
               final_world := w; final_calls := [] |}.
Proof.
  intros Hnode Hmake Hstatus Hbad. unfold extendSequence.
  rewrite getLastEntry_snoc, Hnode, Hmake.
  destruct (decide (status = UNINITIALIZED)); [contradiction |].
  destruct (model_isTerminal w (entry_getState entry)); [reflexivity |].
  destruct Hbad as [Hterminal | Haction]; [discriminate |].
  destruct (action_ entry); [reflexivity | contradiction].
Qed.

(** Iterations that go on do not use up the result. *)
Lemma extendLoop_continues k : forall fuel strategy maximumDepth l l',
  continues k maximumDepth l = Some l' ->
  extendLoop (k + fuel) strategy maximumDepth l
  = extendLoop fuel strategy maximumDepth l'.
Proof.
  induction k as [| k IH]; intros fuel strategy maximumDepth l l'; cbn.
  - now intros [= ->].
  - destruct (iteration maximumDepth l) as [[l1 | l1 | l1] |]; try discriminate.
    apply IH.
Qed.

(** What the code after the loop returns, by the status it finds. *)
Lemma finish_returned strategy l :
  returned (finish strategy l)
  = match status l with OUT_OF_STEPS => FINISHED | other => other end.
Proof.
  unfold finish. destruct (status l) eqn:Hstatus; cbn; congruence.
Qed.

Lemma finish_leave strategy l :
  status l <> OUT_OF_STEPS -> finish strategy l = leave l.
Proof. unfold finish. destruct (status l); congruence. Qed.

(** C6, as amended. When, below the depth cutoff, the generator answers
    with no action, the loop is left by [break] and the call returns the
    status as the generator left it: FINISHED if that is FINISHED; the
    status itself, unchanged and with no further call, if it is INITIAL,
    ERROR or UNINITIALIZED; and, if it is OUT_OF_STEPS, FINISHED after the
    heuristic step. *)
Theorem extendSequence_no_action fuel k strategy w before entry node generator
    status maximumDepth l result generator' status' :
  associatedBeliefNode_ entry = Some node ->
  createGenerator (factory_ strategy) w UNINITIALIZED entry (entry_getState entry)
                  (getHistoricalData w node) = Some (generator, status) ->
  status <> UNINITIALIZED ->
  model_isTerminal w (entry_getState entry) = false ->
  action_ entry = None ->
  continues k maximumDepth (mkLoop true status generator before entry node w [])
  = Some l ->
  getDepth (world l) (currentNode l) < maximumDepth ->
  getStep (Search.generator l) (world l) (Search.status l) (currentEntry l)
          (entry_getState (currentEntry l))
          (getHistoricalData (world l) (currentNode l))
  = Some (result, generator', status') ->
  action result = None ->
  let l' := mkLoop (isFirst l) status' generator' (earlier l) (currentEntry l)
                   (currentNode l) (world l) (calls l) in
  extendSequence (k + S fuel) strategy w (before ++ [entry]) maximumDepth
  = Returns (finish strategy l')
  /\ returned (finish strategy l')
     = match status' with OUT_OF_STEPS => FINISHED | other => other end
  /\ (status' <> OUT_OF_STEPS -> finish strategy l' = leave l').
Proof.
  intros Hnode Hmake Hstatus Hterminal Haction Hruns Hdepth Hstep Hnone l'.
  split; [| split].
  - rewrite (extendSequence_enters _ _ _ _ _ _ _ _ _ Hnode Hmake Hstatus
               Hterminal Haction).
    rewrite (extendLoop_continues _ _ _ _ _ _ Hruns).
    cbn [extendLoop]. unfold iteration.
    destruct (Z.leb_spec maximumDepth (getDepth (world l) (currentNode l)));
      [lia |].
    now rewrite Hstep, Hnone.
  - rewrite finish_returned. cbn. now destruct status'.
  - intros Hother. now apply finish_leave.
Qed.

(** A step taken: its calls, and where it leaves the loop. *)
Lemma take_step_shape l result (a : Action) (o : Observation) (next : State)
    (generator' : Gen) (status' : SearchStatus) :
  exists s : Step,
    step_action s = a /\ step_observation s = o
    /\ step_reward s = reward result /\ step_next s = next
    /\ calls (take_step l result a o next generator' status')
       = calls l ++ step_calls (isFirst l) (currentNode l) s
    /\ currentNode (take_step l result a o next generator' status') = step_child s
    /\ isFirst (take_step l result a o next generator' status') = false
    /\ earlier (take_step l result a o next generator' status')
       = earlier l ++ [record_step (currentEntry l) result a o].
Proof.
  unfold take_step, step_calls.
  destruct (isFirst l);
    destruct (policy_createOrGetChild _ (currentNode l) a o) as [nextNode w2];
    destruct (createOrGetInfo _ next) as [info w4];
    exists (mkStep a o (reward result) next info nextNode); cbn;
    repeat split; now rewrite <- ?app_assoc.
Qed.

(** The code after the loop makes no call, or the two calls of the
    heuristic step. *)
Lemma finish_shape strategy l :
  exists tail,
    final_calls (finish strategy l) = calls l ++ tail
    /\ (tail = []
        \/ exists e s d value,
             tail = [CallHeuristic e s d; CallUpdateEstimate (currentNode l) value 0])
    /\ length (sequence (finish strategy l)) = S (length (earlier l)).
Proof.
  unfold finish.
  destruct (status l);
    try (exists []; cbn; rewrite app_nil_r, length_app; cbn;
         repeat split; [now left | lia]).
  eexists. cbn. split; [reflexivity |]. split.
  - right. now do 4 eexists.
  - rewrite length_app. cbn. lia.
Qed.

Lemma path_end_cons node (s : Step) path :
  path_end node (s :: path) = path_end (step_child s) path.
Proof. reflexivity. Qed.

(** The calls of a run of the loop: those of a path of steps from the
    current belief node, the first of them without continuation if the
    loop has not yet taken a step, and then those of the code after the
    loop. *)
Lemma extendLoop_shape strategy maximumDepth fuel : forall l final,
  extendLoop fuel strategy maximumDepth l = Returns final ->
  exists path tail,
    final_calls final
    = calls l ++ path_calls (isFirst l) (currentNode l) path ++ tail
    /\ (tail = []
        \/ exists e s d value,
             tail = [CallHeuristic e s d;
                     CallUpdateEstimate (path_end (currentNode l) path) value 0])
    /\ length (sequence final) = (S (length (earlier l)) + length path)%nat.
Proof.
  induction fuel as [| fuel IH]; intros l final; [discriminate |].
  cbn [extendLoop]. unfold iteration.
  destruct (maximumDepth <=? getDepth (world l) (currentNode l)).
  { intros [= <-].
    destruct (finish_shape strategy
                (mkLoop (isFirst l) OUT_OF_STEPS (generator l) (earlier l)
                        (currentEntry l) (currentNode l) (world l) (calls l)))
      as (tail & Hcalls & Htail & Hlen).
    exists [], tail. cbn in *. repeat split; [assumption .. | lia]. }
  destruct (getStep _ _ _ _ _ _) as [[[result generator'] status'] |];
    [| discriminate].
  destruct (action result) as [a |].
  2: { intros [= <-].
       destruct (finish_shape strategy
                   (mkLoop (isFirst l) status' generator' (earlier l)
                           (currentEntry l) (currentNode l) (world l) (calls l)))
         as (tail & Hcalls & Htail & Hlen).
       exists [], tail. cbn in *. repeat split; [assumption .. | lia]. }
  destruct (observation result) as [o |]; [| discriminate].
  destruct (nextState result) as [next |]; [| discriminate].
  destruct (isTerminal result).
  - intros [= <-].
    destruct (take_step_shape l result a o next generator' FINISHED)
      as (s & _ & _ & _ & _ & Hcalls & Hnode & Hfirst & Hearlier).
    exists [s], []. cbn [leave final_calls sequence path_calls].
    rewrite Hcalls, Hearlier, !app_nil_r, !length_app. cbn.
    repeat split; [now left | lia].
  - intros Hrest. apply IH in Hrest as (path & tail & Hcalls & Htail & Hlen).
    destruct (take_step_shape l result a o next generator' status')
      as (s & _ & _ & _ & _ & Hstep & Hnode & Hfirst & Hearlier).
    exists (s :: path), tail. cbn [path_calls].
    rewrite Hcalls, Hstep, Hnode, Hfirst, <- !app_assoc.
    split; [reflexivity |]. split.
    + rewrite path_end_cons, <- Hnode. exact Htail.
    + rewrite Hlen, Hearlier, length_app. cbn. lia.
Qed.

(** C3, as amended. The calls of a call of [extendSequence] that returns
    are those of a path of steps from the frontier belief node, followed
    by nothing or by the heuristic step.  The first step of the path has
    no continuation.  Every later step starts with the continuation
    [updateEstimate(node, 0, +1)] at the belief node it leaves: reward
    delta 0 and visit delta +1, before the child is made and apart from
    the [updateImmediate] of that step, which carries the reward with
    visit delta +1. *)
Theorem extendSequence_continuations fuel strategy w (sequence : list HistoryEntry)
    maximumDepth final :
  extendSequence fuel strategy w sequence maximumDepth = Returns final ->
  (exists before entry node path tail,
      sequence = before ++ [entry]
      /\ associatedBeliefNode_ entry = Some node
      /\ final_calls final = path_calls true node path ++ tail
      /\ (tail = []
          \/ exists e s d value,
               tail = [CallHeuristic e s d;
                       CallUpdateEstimate (path_end node path) value 0])
      /\ length (Search.sequence final) = (length sequence + length path)%nat)
  /\ (forall node (s : Step) path,
        path_calls true node (s :: path)
        = [CallCreateOrGetChild node (step_action s) (step_observation s);
           CallUpdateImmediate node (step_action s) (step_observation s)
                               (step_reward s) 1;
           CallCreateOrGetInfo (step_next s);
           CallAddEntry (step_info s);
           CallRegisterNode (step_info s) (step_child s)]
          ++ path_calls false (step_child s) path)
  /\ (forall node (s : Step) path,
        path_calls false node (s :: path)
        = [CallUpdateEstimate node 0 1;
           CallCreateOrGetChild node (step_action s) (step_observation s);
           CallUpdateImmediate node (step_action s) (step_observation s)
                               (step_reward s) 1;
           CallCreateOrGetInfo (step_next s);
           CallAddEntry (step_info s);
           CallRegisterNode (step_info s) (step_child s)]
          ++ path_calls false (step_child s) path).
Proof.
  intros Hreturns. split; [| split; reflexivity].
  unfold extendSequence in Hreturns.
  destruct (getLastEntry sequence) as [[before entry] |] eqn:Hlast;
    [| discriminate].
  apply getLastEntry_Some in Hlast.
  destruct (associatedBeliefNode_ entry) as [node |] eqn:Hnode; [| discriminate].
  destruct (createGenerator _ _ _ _ _ _) as [[generator status] |];
    [| discriminate].
  exists before, entry, node.
  assert (Hnone : forall st,
             Returns (mkFinal st sequence w []) = Returns final ->
             exists path tail,
               sequence = before ++ [entry] /\ associatedBeliefNode_ entry = Some node
               /\ final_calls final = path_calls true node path ++ tail
               /\ (tail = []
                   \/ exists e s d value,
                        tail = [CallHeuristic e s d;
                                CallUpdateEstimate (path_end node path) value 0])
               /\ length (Search.sequence final)
                  = (length sequence + length path)%nat).
  { intros st [= <-]. exists [], []. cbn. repeat split; [assumption .. | now left | lia]. }
  destruct (decide (status = UNINITIALIZED)); [exact (Hnone _ Hreturns) |].
  destruct (model_isTerminal w (entry_getState entry));
    [exact (Hnone _ Hreturns) |].
  destruct (action_ entry); [exact (Hnone _ Hreturns) |].
  apply extendLoop_shape in Hreturns as (path & tail & Hcalls & Htail & Hlen).
  exists path, tail. cbn in Hcalls, Htail, Hlen.
  repeat split; try assumption.
  rewrite Hlen, Hlast, length_app. cbn. lia.
Qed.
End StrategyFacts.

Section StrategyExamples.
Import Search Chain.

(** Root at depth 0, cutoff at depth 2, a generator with two steps of
    reward 1: two levels are made, and the heuristic value ends up as the
    reward of the frontier entry. *)
Example two_steps_then_cutoff :
  exists final : Final (D := domain) (W := Estimates),
    extendSequence 3 two_steps ∅ [entry_at 3 0] 2 = Returns final
    /\ returned final = FINISHED
    /\ immediateReward_ <$> sequence final = [1; 1; 10]%float
    /\ associatedBeliefNode_ <$> sequence final = [Some 0; Some 1; Some 2]%nat.
Proof. eexists. repeat split. Qed.

(** A terminal first step: one new entry, FINISHED, no heuristic. *)
Example terminal_first_step :
  extendSequence 1 (mkStrategy (INITIAL, [(step 7 8 1 0 true, INITIAL)]) heuristic)
                 ∅ [entry_at 3 0] 5
  = Returns (mkFinal FINISHED
               [record_step (entry_at 3 0) (step 7 8 1 0 true) 7%nat 8%nat;
                entry_at 0 1]
               (add_to ∅ 0%nat 1%float 1)
               [CallCreateOrGetChild 0%nat 7%nat 8%nat;
                CallUpdateImmediate 0%nat 7%nat 8%nat 1 1;
                CallCreateOrGetInfo 0%nat;
                CallAddEntry 0%nat;
                CallRegisterNode 0%nat 1%nat]).
Proof. reflexivity. Qed.

(** The loop can outrun the fuel given to it. *)
Example two_steps_out_of_fuel :
  extendSequence 1 two_steps ∅ [entry_at 3 0] 5 = OutOfFuel.
Proof. reflexivity. Qed.

(** A staged generator under [extendSequence]: one step from the first
    stage, two from the second, then no action and the status as the
    stages left it. *)
Example staged_run :
  exists final : Final (D := domain) (W := Estimates),
    extendSequence 4 staged ∅ [entry_at 3 0] 5 = Returns final
    /\ returned final = INITIAL
    /\ action_ <$> sequence final = [Some 1; Some 2; Some 3; None]%nat.
Proof. eexists. repeat split. Qed.

Lemma extendSequence_depth_cutoff_witness :
  exists last : HistoryEntry (D := domain),
    extendSequence 1 two_steps ∅ ([entry_at 3 0] ++ [entry_at 5 1]) 1
    = Returns (mkFinal FINISHED
                 ([entry_at 3 0] ++ [last])
                 (updateEstimate ∅ 1%nat 10%float 0)
                 [CallHeuristic (entry_at 5 1) 5%nat 1%nat;
                  CallUpdateEstimate 1%nat 10 0])
    /\ immediateReward_ last = 10%float
    /\ stateInfo_ last = 5%nat
    /\ action_ last = None
    /\ associatedBeliefNode_ last = Some 1%nat.
Proof.
  destruct (extendSequence_depth_cutoff 0 two_steps ∅ [entry_at 3 0] (entry_at 5 1)
              1%nat (snd (factory_ two_steps)) INITIAL 1)
    as (last & Hrun & Hreward & Hinfo & Haction & _ & _ & Hnode);
    try reflexivity; try discriminate.
  exists last. repeat split; assumption.
Defined.

Lemma extendSequence_precondition_error_witness :
  extendSequence 7 two_steps ∅ ([] ++ [entry_at 0 0]) 5
  = Returns (mkFinal ERROR ([] ++ [entry_at 0 0]) ∅ []).
Proof.
  refine (extendSequence_precondition_error 7 two_steps ∅ [] (entry_at 0 0)
            0%nat (snd (factory_ two_steps)) INITIAL 5 _ _ _ _);
    first [reflexivity | discriminate | left; reflexivity].
Defined.

(** The other precondition: a frontier entry that has an action. *)
Example extendSequence_second_action :
  let entry := record_step (entry_at 3 0) (step 7 8 1 5 false) 7%nat 8%nat in
  extendSequence 7 two_steps ∅ [entry] 5 = Returns (mkFinal ERROR [entry] ∅ []).
Proof. reflexivity. Qed.

(** C6 as stated fails: below the cutoff, a generator that answers with no
    action and leaves the status INITIAL makes the call return INITIAL,
    and one that sets ERROR makes it return ERROR. *)
Lemma no_action_returns_status_left :
  getDepth ∅ 0%nat < 2
  /\ getStep (snd (factory_ declining)) ∅ INITIAL (entry_at 3 0) 3%nat 0%nat
     = Some (no_step, [], INITIAL)
  /\ action no_step = None
  /\ extendSequence 1 declining ∅ [entry_at 3 0] 2
     = Returns (mkFinal INITIAL [entry_at 3 0] ∅ [])
  /\ getStep (snd (factory_ failing)) ∅ INITIAL (entry_at 3 0) 3%nat 0%nat
     = Some (no_step, [], ERROR)
  /\ extendSequence 1 failing ∅ [entry_at 3 0] 2
     = Returns (mkFinal ERROR [entry_at 3 0] ∅ []).
Proof. repeat split. Qed.

Lemma extendSequence_no_action_witness :
  exists l' : Loop (D := domain) (W := Estimates) (Gen := Script),
    extendSequence (2 + 1) two_steps ∅ ([] ++ [entry_at 3 0]) 5
    = Returns (finish two_steps l')
    /\ returned (finish two_steps l') = FINISHED
    /\ (FINISHED <> OUT_OF_STEPS -> finish two_steps l' = leave l').
Proof.
  eexists.
  refine (extendSequence_no_action 0 2 two_steps ∅ [] (entry_at 3 0) 0%nat
            (snd (factory_ two_steps)) INITIAL 5 _ no_step [] FINISHED
            _ _ _ _ _ _ _ _ _);
    first [reflexivity | discriminate].
Defined.

(** C3 as stated fails: the continuation of the second step is
    [updateEstimate(node, 0, +1)], reward delta 0 and visit delta +1; no
    call has visit delta 0 and value delta +1. *)
Lemma continuation_is_a_visit :
  exists final : Final (D := domain) (W := Estimates),
    extendSequence 3 two_steps ∅ [entry_at 3 0] 5 = Returns final
    /\ final_calls final
       = [CallCreateOrGetChild 0%nat 7%nat 8%nat;
          CallUpdateImmediate 0%nat 7%nat 8%nat 1 1;
          CallCreateOrGetInfo 5%nat;
          CallAddEntry 5%nat;
          CallRegisterNode 5%nat 1%nat;
          CallUpdateEstimate 1%nat 0 1;
          CallCreateOrGetChild 1%nat 7%nat 8%nat;
          CallUpdateImmediate 1%nat 7%nat 8%nat 1 1;
          CallCreateOrGetInfo 6%nat;
          CallAddEntry 6%nat;
          CallRegisterNode 6%nat 2%nat]
    /\ (forall node : nat, ~ In (CallUpdateEstimate node 1 0) (final_calls final)).
Proof.
  eexists. split; [reflexivity |]. split; [reflexivity |].
  intros node. cbn. intuition discriminate.
Qed.

Lemma extendSequence_continuations_witness :
  exists (final : Final (D := domain) (W := Estimates)) path,
    extendSequence 3 two_steps ∅ [entry_at 3 0] 5 = Returns final
    /\ final_calls final = path_calls true 0%nat path
    /\ length path = 2%nat.
Proof.
  pose proof (extendSequence_continuations 3 two_steps ∅ [entry_at 3 0] 5) as Hrun.
  let run := eval vm_compute in (extendSequence 3 two_steps ∅ [entry_at 3 0] 5) in
  match run with
  | Returns ?final => exists final; specialize (Hrun final eq_refl)
  end.
  destruct Hrun
    as [(before & entry & node & path & tail & Hseq & Hnode & Hcalls & Htail & Hlen)
        _].
  exists path. split; [reflexivity |].
  destruct before as [| e1 before];
    [| exfalso; injection Hseq as _ Hrest; destruct before; discriminate].
  injection Hseq as <-. injection Hnode as <-.
  cbn in Hlen. injection Hlen as Hlen.
  destruct Htail as [-> | (e & s & d & value & ->)].
  - rewrite app_nil_r in Hcalls. now split.
  - exfalso. apply (f_equal (@rev _)) in Hcalls.
    rewrite rev_app_distr in Hcalls. discriminate.
Defined.
End StrategyExamples.

(** * Further properties *)

(** ** ActionNode: statistics and children *)

Section ActionNodeMore.
Import ActionNode.
Context {Observation BeliefNode OM : Type}.
Context {OMops : ObservationMapping Observation BeliefNode OM}.

Implicit Types (node : ActionNode OM) (obs : Observation) (c : QCall).

Lemma call_keeps_mapping node c : obsMap_ (call node c) = obsMap_ node.
Proof. now destruct c. Qed.

(** X1. The statistic updates never touch the children: after any sequence
    of calls of either overload of [updateQValue], [getMapping] gives the
    same mapping and [getChild] the same answer for every observation. *)
Theorem calls_keep_children (cs : list QCall) : forall node obs,
  getMapping (calls node cs) = getMapping node
  /\ getChild (calls node cs) obs = getChild node obs.
Proof.
  assert (Hmap : forall node, obsMap_ (calls node cs) = obsMap_ node).
  { unfold calls. induction cs as [| c cs IH]; intros node; [reflexivity |].
    cbn [fold_left]. now rewrite IH, call_keeps_mapping. }
  intros node obs. unfold getMapping, getChild. now rewrite Hmap.
Qed.

(** X2. [createOrGetChild] never touches the statistics; it reports
    "created" exactly when [getChild] found nothing before the call, and a
    call that creates nothing leaves the node as it was. *)
Theorem createOrGetChild_keeps_statistics node obs child added node' :
  createOrGetChild node obs = Some (child, added, node') ->
  getNParticles node' = getNParticles node
  /\ getTotalQValue node' = getTotalQValue node
  /\ getMeanQValue node' = getMeanQValue node
  /\ (added = true <-> getChild node obs = Some None)
  /\ (added = false -> node' = node /\ getChild node obs = Some (Some child)).
Proof.
  unfold createOrGetChild, getChild.
  destruct (obsMap_ node) as [m |] eqn:Hmap; [| discriminate].
  destruct (getBelief m obs) as [found |] eqn:Hget.
  - intros [= <- <- <-]. repeat split; try easy.
  - destruct (createBelief m obs) as [made m'].
    intros [= <- <- <-]. repeat split; easy.
Qed.

(** X3. [getChild] and [createOrGetChild] go through [obsMap_]: they have a
    result exactly when the node has a mapping, and a node made by the
    default constructor has none. *)
Theorem createOrGetChild_needs_mapping node obs :
  (createOrGetChild node obs = None <-> getMapping node = None)
  /\ (getChild node obs = None <-> getMapping node = None)
  /\ getMapping (new_default (OM := OM)) = None
  /\ createOrGetChild new_default obs = None.
Proof.
  unfold createOrGetChild, getChild, getMapping.
  destruct (obsMap_ node) as [m |]; cbn.
  - destruct (getBelief m obs); [| destruct (createBelief m obs)];
      repeat split; easy.
  - repeat split; easy.
Qed.

(** Reduction to 64 bits may be done once, at the end. *)
Lemma long_wrap_add (a b : Z) : long_wrap (long_wrap a + b) = long_wrap (a + b).
Proof.
  unfold long_wrap. f_equal.
  replace ((a + 2 ^ 63) mod 2 ^ 64 - 2 ^ 63 + b + 2 ^ 63)
    with ((a + 2 ^ 63) mod 2 ^ 64 + b) by lia.
  rewrite Zplus_mod_idemp_l. f_equal. lia.
Qed.

(** X4. The particle count after a sequence of calls is the count before,
    plus every [deltaNParticles] of the sequence, reduced once to 64 bits;
    the increases and the one-argument overload have no part in it. *)
Theorem calls_count (cs : list QCall) : forall node,
  LONG_MIN <= getNParticles node <= LONG_MAX ->
  getNParticles (calls node cs) = long_wrap (getNParticles node + sum_deltas cs)
  /\ LONG_MIN <= getNParticles (calls node cs) <= LONG_MAX.
Proof.
  unfold getNParticles.
  induction cs as [| c cs IH]; intros node Hrange.
  - cbn. rewrite Z.add_0_r, long_wrap_id by exact Hrange. now split.
  - destruct c as [increase | increase d]; cbn [calls fold_left call sum_deltas].
    + apply (IH (updateQValue node increase)). exact Hrange.
    + destruct (IH (updateQValue_delta node increase d)) as [Hcount Hin].
      { cbn. apply long_wrap_range. }
      unfold calls in *. split; [| exact Hin].
      rewrite Hcount. cbn [updateQValue_delta updateQValue nParticles_].
      rewrite long_wrap_add. f_equal. lia.
Qed.
End ActionNodeMore.

Section ActionNodeMoreExamples.
Import ActionNode.

Lemma createOrGetChild_keeps_statistics_witness :
  let node := calls fresh [UpdateDelta 3 2] in
  exists node',
    createOrGetChild node 7%nat = Some (0%nat, true, node')
    /\ getNParticles node' = 2
    /\ getMeanQValue node' = 1.5%float
    /\ getChild node 7%nat = Some None.
Proof.
  intros node.
  assert (Hcall : createOrGetChild node 7%nat
                  = Some (0%nat, true,
                          mkActionNode 2 3%float 1.5%float
                            (Some (mkTable (<[7%nat := 0%nat]> ∅) 1))))
    by reflexivity.
  destruct (createOrGetChild_keeps_statistics node 7%nat _ _ _ Hcall)
    as (Hcount & _ & Hmean & Hadded & _).
  eexists. split; [exact Hcall |].
  split; [rewrite Hcount; reflexivity |].
  split; [rewrite Hmean; reflexivity |].
  now apply Hadded.
Defined.

Lemma calls_count_witness :
  LONG_MIN <= getNParticles fresh <= LONG_MAX
  /\ getNParticles (calls fresh [UpdateDelta 1 LONG_MAX; Update 2; UpdateDelta 0 1])
     = long_wrap (getNParticles fresh
                  + sum_deltas [UpdateDelta 1 LONG_MAX; Update 2; UpdateDelta 0 1])
  /\ long_wrap (getNParticles fresh
                + sum_deltas [UpdateDelta 1 LONG_MAX; Update 2; UpdateDelta 0 1])
     = LONG_MIN.
Proof.
  assert (Hrange : LONG_MIN <= getNParticles fresh <= LONG_MAX)
    by (split; vm_compute; discriminate).
  split; [exact Hrange |]. split; [| reflexivity].
  exact (proj1 (calls_count _ fresh Hrange)).
Defined.
End ActionNodeMoreExamples.

(** ** StagedStepGenerator: the cursor and exhaustion *)

Section StagedMore.
Import Search.
Context {D : Domain} {W Factory Gen : Type}.
Context {SG : StepGenerator W Gen} {SF : StepGeneratorFactory W Factory Gen}.

Implicit Types (w : W) (status : SearchStatus) (entry : HistoryEntry)
  (state : State) (data : HistoricalData) (result : StepResult) (g : Gen)
  (factories it : list Factory) (s : StagedStepGenerator Factory Gen).

Lemma getStep_while_factories factories : forall it w entry state data status
    result g result' s' status',
  getStep_while factories it w entry state data status result g
  = Some (result', s', status') ->
  factories_ s' = factories.
Proof.
  induction it as [| next it' IH]; intros w entry state data status result g
    result' s' status'; cbn.
  - destruct (action result); now intros [= <- <- <-].
  - destruct (action result); [now intros [= <- <- <-] |].
    destruct (decide (status = FINISHED)); [now intros [= <- <- <-] |].
    destruct (createGenerator next w status entry state data)
      as [[g1 status1] |]; [| discriminate].
    destruct (getStep g1 w status1 entry state data)
      as [[[result1 g1'] status2] |]; [| discriminate].
    apply IH.
Qed.

(** What the loop of [getStep] returns has no action exactly when it has
    cleared the active generator, and then the search is FINISHED or no
    stage is left. *)
Lemma getStep_while_result factories : forall it w entry state data status
    result g result' s' status',
  getStep_while factories it w entry state data status result g
  = Some (result', s', status') ->
  (action result' = None <-> generator_ s' = None)
  /\ (action result' = None -> status' = FINISHED \/ iterator_ s' = []).
Proof.
  induction it as [| next it' IH]; intros w entry state data status result g
    result' s' status'; cbn.
  - destruct (action result) eqn:Haction; intros [= <- <- <-]; cbn;
      rewrite Haction; intuition congruence.
  - destruct (action result) eqn:Haction.
    + intros [= <- <- <-]. cbn. rewrite Haction. intuition congruence.
    + destruct (decide (status = FINISHED)).
      * intros [= <- <- <-]. cbn. rewrite Haction. intuition congruence.
      * destruct (createGenerator next w status entry state data)
          as [[g1 status1] |]; [| discriminate].
        destruct (getStep g1 w status1 entry state data)
          as [[[result1 g1'] status2] |]; [| discriminate].
        apply IH.
Qed.

(** X5. The list of factories of a staged generator never changes and its
    cursor only moves forward: the constructor leaves the cursor inside
    the list, after the first factory, and every [getStep] leaves it at a
    later position of the same list. *)
Theorem StagedStepGenerator_cursor_forward :
  (forall w status factories entry state data s status',
      StagedStepGenerator_new w status factories entry state data
      = Some (s, status') ->
      factories_ s = factories
      /\ exists first, factories_ s = first :: iterator_ s)
  /\ (forall s w status entry state data result s' status',
        StagedStepGenerator_getStep s w status entry state data
        = Some (result, s', status') ->
        factories_ s' = factories_ s
        /\ (exists skipped, iterator_ s = skipped ++ iterator_ s')
        /\ forall done, factories_ s = done ++ iterator_ s ->
             exists done', factories_ s' = done' ++ iterator_ s').
Proof.
  split.
  - intros w status factories entry state data s status'.
    unfold StagedStepGenerator_new.
    destruct factories as [| first rest]; [discriminate |].
    destruct (createGenerator first w status entry state data) as [[g st] |];
      [| discriminate].
    intros [= <- <-]. cbn. split; [reflexivity | now exists first].
  - intros s w status entry state data result s' status'.
    unfold StagedStepGenerator_getStep.
    destruct (generator_ s) as [g |]; [| discriminate].
    destruct (getStep g w status entry state data) as [[[r g'] st] |];
      [| discriminate].
    intros Hloop.
    pose proof (getStep_while_factories _ _ _ _ _ _ _ _ _ _ _ _ Hloop) as Hsame.
    destruct (getStep_while_suffix _ _ _ _ _ _ _ _ _ _ _ _ Hloop)
      as [skipped Hskipped].
    split; [exact Hsame |]. split; [now exists skipped |].
    intros done Hdone. exists (done ++ skipped).
    now rewrite Hsame, Hdone, Hskipped, app_assoc.
Qed.

(** X6. A [getStep] that returns no action has cleared the active
    generator, and one that returns an action has kept one.  It returns no
    action only when the search is FINISHED or no stage is left; and after
    it, a further [getStep] is a call through a null pointer. *)
Theorem StagedStepGenerator_getStep_exhausted s w status entry state data
    result s' status' :
  StagedStepGenerator_getStep s w status entry state data
  = Some (result, s', status') ->
  (action result = None <-> generator_ s' = None)
  /\ (action result = None ->
      (status' = FINISHED \/ iterator_ s' = [])
      /\ forall w2 status2 entry2 state2 data2,
           StagedStepGenerator_getStep s' w2 status2 entry2 state2 data2 = None).
Proof.
  unfold StagedStepGenerator_getStep at 1.
  destruct (generator_ s) as [g |]; [| discriminate].
  destruct (getStep g w status entry state data) as [[[r g'] st] |];
    [| discriminate].
  intros Hloop.
  destruct (getStep_while_result _ _ _ _ _ _ _ _ _ _ _ _ Hloop) as [Hiff Hstop].
  split; [exact Hiff |].
  intros Hnone. split; [now apply Hstop |].
  intros w2 status2 entry2 state2 data2.
  unfold StagedStepGenerator_getStep. now rewrite (proj1 Hiff Hnone).
Qed.

Lemma getStep_while_declining factories : forall it w entry state data status
    result g,
  action result = None ->
  status <> FINISHED ->
  Forall (fun f => declines f w entry state data) it ->
  exists result' status',
    getStep_while factories it w entry state data status result g
    = Some (result', mkStaged factories [] None, status')
    /\ action result' = None
    /\ status' <> FINISHED.
Proof.
  induction it as [| next it' IH]; intros w entry state data status result g
    Hnone Hstatus Hall.
  - exists result, status. cbn. now rewrite Hnone.
  - apply Forall_cons_iff in Hall as [Hnext Hrest].
    destruct (Hnext status Hstatus)
      as (g1 & status1 & result1 & g1' & status2 & Hmake & Hstep & Hnone1 & Hstatus2).
    rewrite (getStep_while_advance _ _ _ _ _ _ _ _ _ _ _ _ _ _ _
               Hnone Hstatus Hmake Hstep).
    now apply IH.
Qed.

(** X7. Stages that decline at once are passed over within one call: when
    the active generator answers with no action, the search is not
    FINISHED, and every stage that is left declines at once, [getStep]
    makes each of them in turn and returns no action, with the cursor at
    the end and the active generator cleared. *)
Theorem StagedStepGenerator_getStep_skips_declining s w status entry state data
    g result g' status' :
  generator_ s = Some g ->
  getStep g w status entry state data = Some (result, g', status') ->
  action result = None ->
  status' <> FINISHED ->
  Forall (fun f => declines f w entry state data) (iterator_ s) ->
  exists result' status'',
    StagedStepGenerator_getStep s w status entry state data
    = Some (result', mkStaged (factories_ s) [] None, status'')
    /\ action result' = None
    /\ status'' <> FINISHED.
Proof.
  intros Hactive Hstep Hnone Hstatus Hall.
  unfold StagedStepGenerator_getStep. rewrite Hactive, Hstep.
  now apply getStep_while_declining.
Qed.

(** X8. A search strategy whose factory is a StagedStepGeneratorFactory
    with no factories cannot extend any sequence: making its generator
    dereferences the end iterator. *)
Theorem extendSequence_staged_without_factories {SV : Solver W} fuel
    (heuristic : HistoryEntry -> State -> HistoricalData -> double) w
    (sequence : list HistoryEntry) (maximumDepth : Z) :
  extendSequence (Factory := list Factory) (Gen := StagedStepGenerator Factory Gen)
                 fuel (mkStrategy [] heuristic) w sequence maximumDepth
  = Undefined.
Proof.
  unfold extendSequence.
  destruct (getLastEntry sequence) as [[before entry] |]; [| reflexivity].
  now destruct (associatedBeliefNode_ entry).
Qed.
End StagedMore.

Section StagedMoreExamples.
Import Search Chain.

Lemma StagedStepGenerator_getStep_exhausted_witness :
  let s3 := mkStaged [stage_A; stage_B] [] (Some ([] : Script)) in
  StagedStepGenerator_getStep s3 ∅ INITIAL (entry_at 7 3) 7%nat 3%nat
  = Some (no_step, mkStaged [stage_A; stage_B] [] None, INITIAL)
  /\ StagedStepGenerator_getStep (mkStaged [stage_A; stage_B] [] (None : option Script))
       ∅ INITIAL (entry_at 7 3) 7%nat 3%nat
     = None.
Proof.
  intros s3.
  assert (Hcall : StagedStepGenerator_getStep s3 ∅ INITIAL (entry_at 7 3) 7%nat 3%nat
                  = Some (no_step, mkStaged [stage_A; stage_B] [] None, INITIAL))
    by reflexivity.
  split; [exact Hcall |].
  destruct (StagedStepGenerator_getStep_exhausted _ _ _ _ _ _ _ _ _ Hcall)
    as [_ Hstop].
  now apply Hstop.
Defined.

(** A stage that declines at once. *)
Lemma empty_script_declines (w : Estimates) entry state data :
  declines (INITIAL, [] : Script) w entry state data.
Proof.
  intros status _. exists [], INITIAL, no_step, [], INITIAL.
  repeat split. discriminate.
Qed.

Lemma StagedStepGenerator_getStep_skips_declining_witness :
  let idle : SearchStatus * Script := (INITIAL, []) in
  let s := mkStaged [stage_A; idle; idle] [idle; idle] (Some ([] : Script)) in
  exists result' status'',
    StagedStepGenerator_getStep s ∅ INITIAL (entry_at 5 1) 5%nat 1%nat
    = Some (result', mkStaged [stage_A; idle; idle] [] None, status'')
    /\ action result' = None
    /\ status'' <> FINISHED.
Proof.
  intros idle s.
  refine (StagedStepGenerator_getStep_skips_declining s ∅ INITIAL (entry_at 5 1)
            5%nat 1%nat [] no_step [] INITIAL _ _ _ _ _);
    try reflexivity; try discriminate.
  repeat constructor; apply empty_script_declines.
Defined.
End StagedMoreExamples.

(** ** BasicSearchStrategy: how a call ends and what it leaves *)

Section StrategyMore.
Import Search.
Context {D : Domain} {W Factory Gen : Type}.
Context {SV : Solver W} {SG : StepGenerator W Gen}
        {SF : StepGeneratorFactory W Factory Gen}.

Implicit Types (w : W) (entry : HistoryEntry) (node : BeliefNode)
  (strategy : BasicSearchStrategy Factory) (result : StepResult)
  (l : Loop (W := W) (Gen := Gen)) (final : Final (W := W))
  (maximumDepth : Z) (fuel k : nat) (g : Gen) (st : SearchStatus).

(** The ways out of one iteration: [break] with the entries, the node, the
    world and the calls as they were; or a step taken, below the cutoff. *)
Lemma iteration_cases maximumDepth l flow :
  iteration maximumDepth l = Some flow ->
  (exists st g,
      flow = Break (mkLoop (isFirst l) st g (earlier l) (currentEntry l)
                           (currentNode l) (world l) (calls l)))
  \/ (exists result a o next g' st',
        getDepth (world l) (currentNode l) < maximumDepth
        /\ flow = Continue (take_step l result a o next g' st'))
  \/ (exists result a o next g',
        getDepth (world l) (currentNode l) < maximumDepth
        /\ flow = Return (take_step l result a o next g' FINISHED)).
Proof.
  unfold iteration.
  destruct (Z.leb_spec maximumDepth (getDepth (world l) (currentNode l)))
    as [Hcut | Hbelow].
  { intros [= <-]. left. now do 2 eexists. }
  destruct (getStep _ _ _ _ _ _) as [[[result g'] st'] |]; [| discriminate].
  destruct (action result) as [a |].
  2: { intros [= <-]. left. now do 2 eexists. }
  destruct (observation result) as [o |]; [| discriminate].
  destruct (nextState result) as [next |]; [| discriminate].
  destruct (isTerminal result); intros [= <-].
  - right. right. exists result, a, o, next, g'. now split.
  - right. left. exists result, a, o, next, g', st'. now split.
Qed.

(** A rule for the loop: what holds of the loop variables before it and is
    kept by every step taken holds when the loop is left, by [break] or by
    [return]. *)
Lemma extendLoop_rule (P : Loop (W := W) (Gen := Gen) -> Prop)
    (Q : Final (W := W) -> Prop) strategy maximumDepth :
  (forall l result a o next g' st',
      P l -> getDepth (world l) (currentNode l) < maximumDepth ->
      P (take_step l result a o next g' st')) ->
  (forall l st g,
      P l ->
      Q (finish strategy (mkLoop (isFirst l) st g (earlier l) (currentEntry l)
                                 (currentNode l) (world l) (calls l)))) ->
  (forall l result a o next g',
      P l -> getDepth (world l) (currentNode l) < maximumDepth ->
      Q (leave (take_step l result a o next g' FINISHED))) ->
  forall fuel l final,
    P l -> extendLoop fuel strategy maximumDepth l = Returns final -> Q final.
Proof.
  intros Hstep Hbreak Hreturn.
  induction fuel as [| fuel IH]; intros l final HP; [discriminate |].
  cbn [extendLoop].
  destruct (iteration maximumDepth l) as [flow |] eqn:Hflow; [| discriminate].
  apply iteration_cases in Hflow
    as [(st & g & ->)
       | [(result & a & o & next & g' & st' & Hbelow & ->)
         | (result & a & o & next & g' & Hbelow & ->)]].
  - intros [= <-]. now apply Hbreak.
  - apply IH. now apply Hstep.
  - intros [= <-]. now apply Hreturn.
Qed.

(** What a step leaves in the fields of the loop that the calls do not
    show. *)
Lemma take_step_entries l result (a : Action) (o : Observation) (next : State)
    (generator' : Gen) (status' : SearchStatus) :
  let l' := take_step l result a o next generator' status' in
  status l' = status'
  /\ earlier l' = earlier l ++ [record_step (currentEntry l) result a o]
  /\ action_ (currentEntry l') = None
  /\ associatedBeliefNode_ (currentEntry l') = Some (currentNode l').
Proof.
  unfold take_step.
  destruct (isFirst l);
    destruct (policy_createOrGetChild _ (currentNode l) a o) as [nextNode w2];
    destruct (createOrGetInfo _ next) as [info w4]; now cbn.
Qed.

(** X9. When the factory leaves the status UNINITIALIZED, [extendSequence]
    returns UNINITIALIZED at once: before the checks of the frontier (so
    also for a terminal frontier state, or a frontier entry with an
    action), with no call made and the sequence and the world as they
    were. *)
Theorem extendSequence_uninitialized fuel strategy w before entry node generator
    maximumDepth :
  associatedBeliefNode_ entry = Some node ->
  createGenerator (factory_ strategy) w UNINITIALIZED entry (entry_getState entry)
                  (getHistoricalData w node) = Some (generator, UNINITIALIZED) ->
  extendSequence fuel strategy w (before ++ [entry]) maximumDepth
  = Returns {| returned := UNINITIALIZED; sequence := before ++ [entry];
               final_world := w; final_calls := [] |}.
Proof.
  intros Hnode Hmake. unfold extendSequence.
  rewrite getLastEntry_snoc, Hnode, Hmake.
  now destruct (decide (UNINITIALIZED = UNINITIALIZED)).
Qed.

(** X10. A step that the generator marks terminal ends the call there:
    [extendSequence] returns FINISHED whatever status the generator left,
    having made the calls of that step and no others after it (no
    heuristic), and the sequence ends with the entry completed by the step
    and the one new entry for the terminal state. *)
Theorem extendSequence_terminal_step fuel k strategy w before entry node generator
    status maximumDepth l result (a : Action) (o : Observation) (next : State)
    generator' status' :
  associatedBeliefNode_ entry = Some node ->
  createGenerator (factory_ strategy) w UNINITIALIZED entry (entry_getState entry)
                  (getHistoricalData w node) = Some (generator, status) ->
  status <> UNINITIALIZED ->
  model_isTerminal w (entry_getState entry) = false ->
  action_ entry = None ->
  continues k maximumDepth (mkLoop true status generator before entry node w [])
  = Some l ->
  getDepth (world l) (currentNode l) < maximumDepth ->
  getStep (Search.generator l) (world l) (Search.status l) (currentEntry l)
          (entry_getState (currentEntry l))
          (getHistoricalData (world l) (currentNode l))
  = Some (result, generator', status') ->
  action result = Some a ->
  observation result = Some o ->
  nextState result = Some next ->
  isTerminal result = true ->
  exists final (s : Step) last,
    extendSequence (k + S fuel) strategy w (before ++ [entry]) maximumDepth
    = Returns final
    /\ returned final = FINISHED
    /\ final_calls final = calls l ++ step_calls (isFirst l) (currentNode l) s
    /\ step_action s = a /\ step_observation s = o
    /\ step_reward s = reward result /\ step_next s = next
    /\ sequence final
       = earlier l ++ [record_step (currentEntry l) result a o; last]
    /\ action_ last = None
    /\ associatedBeliefNode_ last = Some (step_child s).
Proof.
  intros Hnode Hmake Hstatus Hterminal Haction Hruns Hdepth Hstep Ha Ho Hnext Hend.
  destruct (take_step_shape l result a o next generator' FINISHED)
    as (s & Hsa & Hso & Hsr & Hsn & Hcalls & Hchild & _ & _).
  destruct (take_step_entries l result a o next generator' FINISHED)
    as (Hst & Hearlier & Hopen & Hreg).
  exists (leave (take_step l result a o next generator' FINISHED)), s,
    (currentEntry (take_step l result a o next generator' FINISHED)).
  split.
  { rewrite (extendSequence_enters _ _ _ _ _ _ _ _ _ Hnode Hmake Hstatus
               Hterminal Haction).
    rewrite (extendLoop_continues _ _ _ _ _ _ Hruns).
    cbn [extendLoop]. unfold iteration.
    destruct (Z.leb_spec maximumDepth (getDepth (world l) (currentNode l)));
      [lia |].
    now rewrite Hstep, Ha, Ho, Hnext, Hend. }
  unfold leave. cbn [returned final_calls sequence].
  repeat split; try assumption.
  - rewrite Hearlier, <- app_assoc. reflexivity.
  - now rewrite Hreg, Hchild.
Qed.

(** X11. [extendSequence] never returns OUT_OF_STEPS: the depth cutoff is
    turned into FINISHED by the heuristic step, also when it is the
    generator that set OUT_OF_STEPS. *)
Theorem extendSequence_never_out_of_steps fuel strategy w
    (sequence : list HistoryEntry) maximumDepth final :
  extendSequence fuel strategy w sequence maximumDepth = Returns final ->
  returned final <> OUT_OF_STEPS.
Proof.
  unfold extendSequence.
  destruct (getLastEntry sequence) as [[before entry] |]; [| discriminate].
  destruct (associatedBeliefNode_ entry) as [node |]; [| discriminate].
  destruct (createGenerator _ _ _ _ _ _) as [[generator status] |];
    [| discriminate].
  destruct (decide (status = UNINITIALIZED)) as [-> |];
    [now intros [= <-] |].
  destruct (model_isTerminal w (entry_getState entry)); [now intros [= <-] |].
  destruct (action_ entry); [now intros [= <-] |].
  apply (extendLoop_rule (fun _ => True)
           (fun final => returned final <> OUT_OF_STEPS)); [easy | | | exact I].
  - intros l st g _. rewrite finish_returned. cbn. now destruct st.
  - intros l result a o next g' _ _. unfold leave. cbn [returned].
    now rewrite (proj1 (take_step_entries l result a o next g' FINISHED)).
Qed.

(** The sequence after the loop: the entries before the current one, and
    the current one, with at most its reward changed. *)
Lemma finish_sequence strategy l :
  exists e,
    sequence (finish strategy l) = earlier l ++ [e]
    /\ stateInfo_ e = stateInfo_ (currentEntry l)
    /\ associatedBeliefNode_ e = associatedBeliefNode_ (currentEntry l)
    /\ action_ e = action_ (currentEntry l)
    /\ observation_ e = observation_ (currentEntry l).
Proof.
  unfold finish.
  destruct (status l); try (exists (currentEntry l); now cbn).
  eexists. cbn. now repeat split.
Qed.

(** X12. [extendSequence] only appends: the entries before the frontier
    entry are as they were, the frontier entry keeps its state and its
    belief node, and every entry after it is registered under a belief
    node. *)
Theorem extendSequence_appends fuel strategy w before entry maximumDepth final :
  extendSequence fuel strategy w (before ++ [entry]) maximumDepth = Returns final ->
  exists entry' added,
    sequence final = before ++ entry' :: added
    /\ stateInfo_ entry' = stateInfo_ entry
    /\ associatedBeliefNode_ entry' = associatedBeliefNode_ entry
    /\ Forall registered added.
Proof.
  unfold extendSequence. rewrite getLastEntry_snoc.
  assert (Hsame : forall st,
             Returns (mkFinal st (before ++ [entry]) w []) = Returns final ->
             exists entry' added,
               sequence final = before ++ entry' :: added
               /\ stateInfo_ entry' = stateInfo_ entry
               /\ associatedBeliefNode_ entry' = associatedBeliefNode_ entry
               /\ Forall registered added).
  { intros st [= <-]. exists entry, []. now cbn. }
  destruct (associatedBeliefNode_ entry) as [node |] eqn:Hnode; [| discriminate].
  destruct (createGenerator _ _ _ _ _ _) as [[generator status] |];
    [| discriminate].
  destruct (decide (status = UNINITIALIZED)); [apply Hsame |].
  destruct (model_isTerminal w (entry_getState entry)); [apply Hsame |].
  destruct (action_ entry); [apply Hsame |].
  pose (same := fun e : HistoryEntry =>
                  stateInfo_ e = stateInfo_ entry
                  /\ associatedBeliefNode_ e = Some node).
  apply (extendLoop_rule
           (fun l => (earlier l = before /\ same (currentEntry l))
                     \/ (exists entry' mid,
                            earlier l = before ++ entry' :: mid
                            /\ same entry' /\ Forall registered mid
                            /\ registered (currentEntry l)))
           (fun final => exists entry' added,
                sequence final = before ++ entry' :: added
                /\ stateInfo_ entry' = stateInfo_ entry
                /\ associatedBeliefNode_ entry' = Some node
                /\ Forall registered added)).
  - intros l result a o next g' st' HP _.
    destruct (take_step_entries l result a o next g' st')
      as (_ & Hearlier & _ & Hreg).
    right. destruct HP as [[Hbefore [Hinfo Hassoc]]
                          | (entry' & mid & Hbefore & [Hinfo Hassoc] & Hmid & Hcur)].
    + exists (record_step (currentEntry l) result a o), [].
      rewrite Hearlier, Hbefore. repeat split; try easy.
      unfold registered. now rewrite Hreg.
    + exists entry', (mid ++ [record_step (currentEntry l) result a o]).
      rewrite Hearlier, Hbefore, <- app_assoc. repeat split; try easy.
      * apply Forall_app. split; [exact Hmid |]. now repeat constructor.
      * unfold registered. now rewrite Hreg.
  - intros l st g HP.
    destruct (finish_sequence strategy
                (mkLoop (isFirst l) st g (earlier l) (currentEntry l)
                        (currentNode l) (world l) (calls l)))
      as (e & -> & Hinfo & Hassoc & _ & _). cbn in Hinfo, Hassoc |- *.
    destruct HP as [[Hbefore [Hinfo' Hassoc']]
                   | (entry' & mid & Hbefore & [Hinfo' Hassoc'] & Hmid & Hcur)].
    + exists e, []. rewrite Hbefore. repeat split; try easy; congruence.
    + exists entry', (mid ++ [e]). rewrite Hbefore, <- app_assoc.
      repeat split; try easy.
      apply Forall_app. split; [exact Hmid |]. repeat constructor.
      unfold registered in *. congruence.
  - intros l result a o next g' HP _.
    destruct (take_step_entries l result a o next g' FINISHED)
      as (_ & Hearlier & _ & Hreg).
    unfold leave. cbn [sequence]. rewrite Hearlier.
    destruct HP as [[Hbefore [Hinfo Hassoc]]
                   | (entry' & mid & Hbefore & [Hinfo Hassoc] & Hmid & Hcur)].
    + eexists (record_step (currentEntry l) result a o), [_].
      rewrite Hbefore, <- app_assoc. repeat split; try easy.
      repeat constructor. unfold registered. now rewrite Hreg.
    + eexists entry', (mid ++ [record_step (currentEntry l) result a o; _]).
      rewrite Hbefore, <- !app_assoc. repeat split; try easy.
      apply Forall_app. split; [exact Hmid |]. repeat constructor; [easy |].
      unfold registered. now rewrite Hreg.
  - left. now split.
Qed.

(** X13. After a call on a frontier entry without an action, the sequence
    is again one that [extendSequence] accepts as far as the entries go:
    its last entry has no action, and every entry that the call has put
    before it, starting from the old frontier entry, has an action and an
    observation. *)
Theorem extendSequence_open_frontier fuel strategy w before entry maximumDepth
    final :
  extendSequence fuel strategy w (before ++ [entry]) maximumDepth = Returns final ->
  action_ entry = None ->
  exists done last,
    sequence final = before ++ done ++ [last]
    /\ Forall completed done
    /\ action_ last = None.
Proof.
  unfold extendSequence. rewrite getLastEntry_snoc. intros Hcall Hopen.
  assert (Hsame : forall st,
             Returns (mkFinal st (before ++ [entry]) w []) = Returns final ->
             exists done last,
               sequence final = before ++ done ++ [last]
               /\ Forall completed done /\ action_ last = None).
  { intros st [= <-]. exists [], entry. now cbn. }
  destruct (associatedBeliefNode_ entry) as [node |]; [| discriminate].
  destruct (createGenerator _ _ _ _ _ _) as [[generator status] |];
    [| discriminate].
  destruct (decide (status = UNINITIALIZED)); [now apply (Hsame _ Hcall) |].
  destruct (model_isTerminal w (entry_getState entry));
    [now apply (Hsame _ Hcall) |].
  rewrite Hopen in Hcall. revert Hcall.
  apply (extendLoop_rule
           (fun l => action_ (currentEntry l) = None
                     /\ exists done, earlier l = before ++ done
                                    /\ Forall completed done)
           (fun final => exists done last,
                sequence final = before ++ done ++ [last]
                /\ Forall completed done /\ action_ last = None)).
  - intros l result a o next g' st' (_ & done & Hbefore & Hdone) _.
    destruct (take_step_entries l result a o next g' st')
      as (_ & Hearlier & Hnone & _).
    split; [exact Hnone |].
    exists (done ++ [record_step (currentEntry l) result a o]).
    rewrite Hearlier, Hbefore, <- app_assoc. split; [reflexivity |].
    apply Forall_app. split; [exact Hdone |]. now repeat constructor.
  - intros l st g (Hnone & done & Hbefore & Hdone).
    destruct (finish_sequence strategy
                (mkLoop (isFirst l) st g (earlier l) (currentEntry l)
                        (currentNode l) (world l) (calls l)))
      as (e & -> & _ & _ & Haction & _). cbn in Haction |- *.
    exists done, e. rewrite Hbefore, <- app_assoc.
    repeat split; [exact Hdone | congruence].
  - intros l result a o next g' (_ & done & Hbefore & Hdone) _.
    destruct (take_step_entries l result a o next g' FINISHED)
      as (_ & Hearlier & Hnone & _).
    unfold leave. cbn [sequence].
    exists (done ++ [record_step (currentEntry l) result a o]),
      (currentEntry (take_step l result a o next g' FINISHED)).
    rewrite Hearlier, Hbefore, <- !app_assoc. repeat split; [| exact Hnone].
    apply Forall_app. split; [exact Hdone |]. now repeat constructor.
  - split; [exact Hopen |]. exists []. now rewrite app_nil_r.
Qed.

(** Every step goes one level down the belief tree. *)
Lemma take_step_depth l result (a : Action) (o : Observation) (next : State)
    (generator' : Gen) (status' : SearchStatus) :
  depth_laws ->
  getDepth (world (take_step l result a o next generator' status'))
           (currentNode (take_step l result a o next generator' status'))
  = getDepth (world l) (currentNode l) + 1.
Proof.
  intros (Hchild & Hestimate & Himmediate & Hinfo & Hregister).
  unfold take_step.
  destruct (isFirst l); cbv beta iota zeta;
    match goal with
    | |- context [policy_createOrGetChild ?w1 (currentNode l) a o] =>
        pose proof (Hchild w1 (currentNode l) a o) as Hdeeper;
        destruct (policy_createOrGetChild w1 (currentNode l) a o)
          as [nextNode w2]
    end;
    cbn [fst snd] in Hdeeper;
    match goal with
    | |- context [createOrGetInfo ?w3 next] =>
        pose proof (Hinfo w3 next nextNode) as Hkept;
        destruct (createOrGetInfo w3 next) as [info w4]
    end;
    cbn [fst snd] in Hkept; cbn [world currentNode];
    rewrite Hregister, Hkept, Himmediate, Hdeeper, ?Hestimate; reflexivity.
Qed.

Lemma extendLoop_terminates strategy maximumDepth :
  depth_laws ->
  forall fuel l,
    (Z.to_nat (maximumDepth - getDepth (world l) (currentNode l)) < fuel)%nat ->
    extendLoop fuel strategy maximumDepth l <> OutOfFuel.
Proof.
  intros Hlaws. induction fuel as [| fuel IH]; intros l Hfuel; [lia |].
  cbn [extendLoop].
  destruct (iteration maximumDepth l) as [flow |] eqn:Hflow; [| discriminate].
  apply iteration_cases in Hflow
    as [(st & g & ->)
       | [(result & a & o & next & g' & st' & Hbelow & ->)
         | (result & a & o & next & g' & Hbelow & ->)]]; try discriminate.
  apply IH. rewrite take_step_depth by exact Hlaws. lia.
Qed.

(** X14. The loop ends.  When every child belief is one deeper than its
    parent (and the updates leave depths alone), a call on a frontier at
    belief [node] never needs more iterations than the levels between the
    depth of [node] and [maximumDepth], plus one: with that much fuel the
    embedding does not run out. *)
Theorem extendSequence_terminates fuel strategy w before entry node maximumDepth :
  depth_laws ->
  associatedBeliefNode_ entry = Some node ->
  (Z.to_nat (maximumDepth - getDepth w node) < fuel)%nat ->
  extendSequence fuel strategy w (before ++ [entry]) maximumDepth <> OutOfFuel.
Proof.
  intros Hlaws Hnode Hfuel. unfold extendSequence.
  rewrite getLastEntry_snoc, Hnode.
  destruct (createGenerator _ _ _ _ _ _) as [[generator status] |];
    [| discriminate].
  destruct (decide (status = UNINITIALIZED)); [discriminate |].
  destruct (model_isTerminal w (entry_getState entry)); [discriminate |].
  destruct (action_ entry); [discriminate |].
  now apply extendLoop_terminates.
Qed.

Lemma extendLoop_length strategy maximumDepth :
  depth_laws ->
  forall fuel l final,
    extendLoop fuel strategy maximumDepth l = Returns final ->
    (length (sequence final)
     <= S (length (earlier l))
        + Z.to_nat (maximumDepth - getDepth (world l) (currentNode l)))%nat.
Proof.
  intros Hlaws. induction fuel as [| fuel IH]; intros l final; [discriminate |].
  cbn [extendLoop].
  destruct (iteration maximumDepth l) as [flow |] eqn:Hflow; [| discriminate].
  apply iteration_cases in Hflow
    as [(st & g & ->)
       | [(result & a & o & next & g' & st' & Hbelow & ->)
         | (result & a & o & next & g' & Hbelow & ->)]].
  - intros [= <-].
    destruct (finish_sequence strategy
                (mkLoop (isFirst l) st g (earlier l) (currentEntry l)
                        (currentNode l) (world l) (calls l)))
      as (e & -> & _). cbn. rewrite length_app. cbn. lia.
  - intros Hrest. apply IH in Hrest.
    rewrite take_step_depth in Hrest by exact Hlaws.
    destruct (take_step_entries l result a o next g' st')
      as (_ & Hearlier & _). rewrite Hearlier, length_app in Hrest.
    cbn in Hrest. lia.
  - intros [= <-]. unfold leave. cbn [sequence].
    destruct (take_step_entries l result a o next g' FINISHED)
      as (_ & Hearlier & _). rewrite Hearlier, !length_app. cbn. lia.
Qed.

(** X15. The depth bound holds: under the same laws of depth, a call on a
    frontier at belief [node] appends at most as many entries as there are
    levels between the depth of [node] and [maximumDepth], and none when
    [node] is at or below [maximumDepth]. *)
Theorem extendSequence_depth_bound fuel strategy w before entry node maximumDepth
    final :
  depth_laws ->
  associatedBeliefNode_ entry = Some node ->
  extendSequence fuel strategy w (before ++ [entry]) maximumDepth = Returns final ->
  (length (sequence final)
   <= length (before ++ [entry]) + Z.to_nat (maximumDepth - getDepth w node))%nat.
Proof.
  intros Hlaws Hnode. unfold extendSequence.
  rewrite getLastEntry_snoc, Hnode, length_app. cbn [length].
  destruct (createGenerator _ _ _ _ _ _) as [[generator status] |];
    [| discriminate].
  assert (Hsame : forall st,
             Returns (mkFinal st (before ++ [entry]) w []) = Returns final ->
             (length (sequence final)
              <= length before + 1
                 + Z.to_nat (maximumDepth - getDepth w node))%nat).
  { intros st [= <-]. cbn. rewrite length_app. cbn. lia. }
  destruct (decide (status = UNINITIALIZED)); [apply Hsame |].
  destruct (model_isTerminal w (entry_getState entry)); [apply Hsame |].
  destruct (action_ entry); [apply Hsame |].
  intros Hrun. apply (extendLoop_length _ _ Hlaws) in Hrun. cbn in Hrun. lia.
Qed.
End StrategyMore.

Section StrategyMoreExamples.
Import Search Chain.

Lemma chain_depth_laws : depth_laws (D := domain) (W := Estimates).
Proof.
  repeat split; intros; cbn; try reflexivity. lia.
Qed.

Lemma extendSequence_uninitialized_witness :
  extendSequence 0 unmade ∅ ([] ++ [entry_at 0 0]) 5
  = Returns (mkFinal UNINITIALIZED ([] ++ [entry_at 0 0]) ∅ []).
Proof.
  refine (extendSequence_uninitialized 0 unmade ∅ [] (entry_at 0 0) 0%nat
            (snd (factory_ unmade)) 5 _ _); reflexivity.
Defined.

Lemma extendSequence_terminal_step_witness :
  exists final : Final (D := domain) (W := Estimates),
    extendSequence (0 + 1) ending ∅ ([] ++ [entry_at 3 0]) 5 = Returns final
    /\ returned final = FINISHED
    /\ final_calls final
       = [CallCreateOrGetChild 0%nat 7%nat 8%nat;
          CallUpdateImmediate 0%nat 7%nat 8%nat 1 1;
          CallCreateOrGetInfo 0%nat;
          CallAddEntry 0%nat;
          CallRegisterNode 0%nat 1%nat]
    /\ length (sequence final) = 2%nat.
Proof.
  destruct (extendSequence_terminal_step 0 0 ending ∅ [] (entry_at 3 0) 0%nat
              (snd (factory_ ending)) INITIAL 5
              (mkLoop true INITIAL (snd (factory_ ending)) [] (entry_at 3 0)
                      0%nat ∅ [])
              (step 7 8 1 0 true) 7%nat 8%nat 0%nat [] INITIAL)
    as (final & s & last & Hrun & Hreturned & Hcalls & _ & _ & _ & _ & Hseq & _);
    try reflexivity; try discriminate.
  exists final. split; [exact Hrun |]. split; [exact Hreturned |].
  split; [| now rewrite Hseq].
  assert (Hsame : Returns final
                  = extendSequence (0 + 1) ending ∅ ([] ++ [entry_at 3 0]) 5)
    by now rewrite Hrun.
  injection Hsame as ->. reflexivity.
Defined.

Lemma extendSequence_never_out_of_steps_witness :
  exists final : Final (D := domain) (W := Estimates),
    extendSequence 2 cut_short ∅ [entry_at 3 0] 5 = Returns final
    /\ returned final = FINISHED
    /\ returned final <> OUT_OF_STEPS.
Proof.
  eexists. split; [reflexivity |]. split; [reflexivity |].
  apply (extendSequence_never_out_of_steps 2 cut_short ∅ [entry_at 3 0] 5).
  reflexivity.
Defined.

Lemma extendSequence_appends_witness :
  exists (final : Final (D := domain) (W := Estimates)) entry' added,
    extendSequence 3 two_steps ∅ ([] ++ [entry_at 3 0]) 5 = Returns final
    /\ sequence final = [] ++ entry' :: added
    /\ stateInfo_ entry' = stateInfo_ (entry_at 3 0)
    /\ associatedBeliefNode_ entry' = associatedBeliefNode_ (entry_at 3 0)
    /\ Forall registered added.
Proof.
  eexists.
  refine (let H := extendSequence_appends 3 two_steps ∅ [] (entry_at 3 0) 5 _ eq_refl
          in _).
  destruct H as (entry' & added & Hseq & Hinfo & Hnode & Hadded).
  exists entry', added. repeat split; assumption.
Defined.

Lemma extendSequence_open_frontier_witness :
  exists (final : Final (D := domain) (W := Estimates)) done last,
    extendSequence 3 two_steps ∅ ([] ++ [entry_at 3 0]) 5 = Returns final
    /\ sequence final = [] ++ done ++ [last]
    /\ Forall completed done
    /\ action_ last = None.
Proof.
  eexists.
  refine (let H := extendSequence_open_frontier 3 two_steps ∅ [] (entry_at 3 0) 5
                     _ eq_refl eq_refl
          in _).
  destruct H as (done & last & Hseq & Hdone & Hlast).
  exists done, last. repeat split; assumption.
Defined.

Lemma extendSequence_terminates_witness :
  depth_laws (D := domain) (W := Estimates)
  /\ (Z.to_nat (2 - getDepth (∅ : Estimates) 0%nat) < 3)%nat
  /\ exists outcome,
       extendSequence 3 two_steps ∅ ([] ++ [entry_at 3 0]) 2 = outcome
       /\ outcome <> OutOfFuel.
Proof.
  assert (Hfuel : (Z.to_nat (2 - getDepth (∅ : Estimates) 0%nat) < 3)%nat)
    by (cbn; lia).
  split; [exact chain_depth_laws |]. split; [exact Hfuel |].
  eexists. split; [reflexivity |].
  exact (extendSequence_terminates 3 two_steps ∅ [] (entry_at 3 0) 0%nat 2
           chain_depth_laws eq_refl Hfuel).
Defined.

Lemma extendSequence_depth_bound_witness :
  exists final : Final (D := domain) (W := Estimates),
    extendSequence 3 two_steps ∅ ([] ++ [entry_at 3 0]) 2 = Returns final
    /\ (length (sequence final)
        <= length ([] ++ [entry_at 3 0])
           + Z.to_nat (2 - getDepth (∅ : Estimates) 0%nat))%nat.
Proof.
  eexists. split; [reflexivity |].
  apply (extendSequence_depth_bound 3 two_steps ∅ [] (entry_at 3 0) 0%nat 2 _
           chain_depth_laws eq_refl).
  reflexivity.
Defined.
End StrategyMoreExamples.
